(** * incident_bundle: a shallow embedding of the diagnostics collector

    The development follows [src/incident_bundle.py].  Python strings are
    sequences of code points; they are represented by [string], whose
    characters are the code points below 256.  The Python built-ins the
    script calls ([str.strip], [str.replace], [re.sub], [shlex.quote], ...)
    are given first, with their behaviour on that range, then the script's
    own functions in the order of the source. *)

From Stdlib Require Import String Ascii List ZArith Lia Bool DecimalString.
Import ListNotations.
Open Scope string_scope.

(** ** Python built-ins used by the script *)

Module Py.

(** [str.isspace] on one character: TAB..CR, FS..US, space, NEL, NBSP. *)
Definition isspace (c : ascii) : bool :=
  let n := N_of_ascii c in
  (((9 <=? n) && (n <=? 13)) || ((28 <=? n) && (n <=? 32))
   || (n =? 133) || (n =? 160))%N.

(** Membership of a character in the argument of [strip(chars)]. *)
Fixpoint mem (chars : string) (c : ascii) : bool :=
  match chars with
  | EmptyString => false
  | String d rest => Ascii.eqb c d || mem rest c
  end.

Fixpoint lstrip_by (p : ascii -> bool) (s : string) : string :=
  match s with
  | EmptyString => EmptyString
  | String c s' => if p c then lstrip_by p s' else s
  end.

Fixpoint rstrip_by (p : ascii -> bool) (s : string) : string :=
  match s with
  | EmptyString => EmptyString
  | String c s' =>
      match rstrip_by p s' with
      | EmptyString => if p c then EmptyString else String c EmptyString
      | r => String c r
      end
  end.

Definition strip_by (p : ascii -> bool) (s : string) : string :=
  rstrip_by p (lstrip_by p s).

(** [s.strip()], [s.rstrip()], [s.lstrip(chars)], [s.strip(chars)]. *)
Definition strip (s : string) : string := strip_by isspace s.
Definition rstrip (s : string) : string := rstrip_by isspace s.
Definition lstrip_chars (chars s : string) : string := lstrip_by (mem chars) s.
Definition strip_chars (chars s : string) : string := strip_by (mem chars) s.

(** [s.replace(old, new)] for a non-empty [old] (the script's two uses have
    a one-character [old]): leftmost non-overlapping occurrences.  [skip]
    counts the characters of a matched occurrence still to be passed. *)
Fixpoint replace_from (old new : string) (skip : nat) (s : string) : string :=
  match s with
  | EmptyString => EmptyString
  | String c s' =>
      match skip with
      | S k => replace_from old new k s'
      | O =>
          if prefix old s
          then new ++ replace_from old new (String.length old - 1) s'
          else String c (replace_from old new 0 s')
      end
  end.

Definition replace (old new s : string) : string := replace_from old new 0 s.

(** [re.sub("[^...]+", repl, s)] for a negated character class with the
    [+] quantifier: every maximal run of characters outside [keep] is
    replaced by one [repl].  [in_run] tells that the previous character
    already belonged to the current run. *)
Fixpoint re_sub_runs (keep : ascii -> bool) (repl : string) (in_run : bool)
    (s : string) : string :=
  match s with
  | EmptyString => EmptyString
  | String c s' =>
      if keep c then String c (re_sub_runs keep repl false s')
      else if in_run then re_sub_runs keep repl true s'
      else repl ++ re_sub_runs keep repl true s'
  end.

Definition re_sub_neg_class_plus (keep : ascii -> bool) (repl s : string) :=
  re_sub_runs keep repl false s.

(** [x or d] on strings: the empty string is falsy. *)
Definition or_else (x d : string) : string :=
  match x with
  | EmptyString => d
  | _ => x
  end.

Definition in_range (lo hi c : ascii) : bool :=
  ((N_of_ascii lo <=? N_of_ascii c) && (N_of_ascii c <=? N_of_ascii hi))%N.

Definition is_alnum (c : ascii) : bool :=
  in_range "A" "Z" c || in_range "a" "z" c || in_range "0" "9" c.

Definition is_empty (s : string) : bool :=
  match s with
  | EmptyString => true
  | _ => false
  end.

Fixpoint all_chars (p : ascii -> bool) (s : string) : bool :=
  match s with
  | EmptyString => true
  | String c s' => p c && all_chars p s'
  end.

(** [str.lower]: A-Z and the capital letters of the Latin-1 block. *)
Definition lower_char (c : ascii) : ascii :=
  let n := N_of_ascii c in
  if (((65 <=? n) && (n <=? 90))
      || ((192 <=? n) && (n <=? 222) && negb (n =? 215)))%N
  then ascii_of_N (n + 32)
  else c.

Fixpoint lower (s : string) : string :=
  match s with
  | EmptyString => EmptyString
  | String c s' => String (lower_char c) (lower s')
  end.

(** Line boundaries of [str.splitlines]: LF, VT, FF, CR, FS, GS, RS, NEL. *)
Definition is_linebreak (c : ascii) : bool :=
  let n := N_of_ascii c in
  (((10 <=? n) && (n <=? 13)) || ((28 <=? n) && (n <=? 30)) || (n =? 133))%N.

Definition CR : ascii := ascii_of_N 13.
Definition LF : ascii := ascii_of_N 10.

Definition starts_with_char (c : ascii) (s : string) : bool :=
  match s with
  | String d _ => Ascii.eqb c d
  | EmptyString => false
  end.

(** [s.splitlines()]: the lines without their boundaries; CR LF is one
    boundary and a final boundary opens no further line. *)
Fixpoint splitlines (s : string) : list string :=
  match s with
  | EmptyString => []
  | String c s' =>
      if is_linebreak c then
        if Ascii.eqb c CR && starts_with_char LF s' then splitlines s'
        else EmptyString :: splitlines s'
      else
        match splitlines s' with
        | [] => [String c EmptyString]
        | l :: ls => String c l :: ls
        end
  end.

(** [s.split(sep)] for a one-character separator. *)
Fixpoint split (sep : ascii) (s : string) : list string :=
  match s with
  | EmptyString => [EmptyString]
  | String c s' =>
      match split sep s' with
      | [] => [EmptyString]
      | l :: ls =>
          if Ascii.eqb c sep then EmptyString :: l :: ls else String c l :: ls
      end
  end.

(** [sep.join(items)]. *)
Fixpoint join (sep : string) (items : list string) : string :=
  match items with
  | [] => EmptyString
  | [x] => x
  | x :: rest => x ++ sep ++ join sep rest
  end.

(** [str(n)] for an int. *)
Definition str_of_int (n : Z) : string := NilZero.string_of_int (Z.to_int n).

(** [len(s.encode("utf-8"))]: one byte below 128, two up to 255. *)
Fixpoint utf8_len (s : string) : Z :=
  match s with
  | EmptyString => 0
  | String c s' => (if (N_of_ascii c <? 128)%N then 1 else 2) + utf8_len s'
  end.

(** [s.encode("utf-8")]: one byte below 128, a lead byte and a continuation
    byte up to 255. *)
Definition utf8_encode_char (c : ascii) : list Byte.byte :=
  let n := N_of_ascii c in
  if (n <? 128)%N then [byte_of_ascii c]
  else [byte_of_ascii (ascii_of_N (192 + n / 64));
        byte_of_ascii (ascii_of_N (128 + n mod 64))].

Fixpoint utf8_encode (s : string) : list Byte.byte :=
  match s with
  | EmptyString => []
  | String c s' => (utf8_encode_char c ++ utf8_encode s')%list
  end.

(** [b.decode("utf-8")] where the bytes are well formed and every code
    point is below 256: a byte below 128 stands for itself, the lead bytes
    194 and 195 with a continuation byte stand for 128 to 255.  [None]
    elsewhere: the bytes are ill formed, or the text leaves the code points
    a [string] has. *)
Fixpoint utf8_decode (b : list Byte.byte) : option string :=
  match b with
  | [] => Some EmptyString
  | x :: rest =>
      let n := Byte.to_N x in
      if (n <? 128)%N
      then option_map (String (ascii_of_byte x)) (utf8_decode rest)
      else if (n =? 194)%N || (n =? 195)%N
      then
        match rest with
        | y :: rest' =>
            let m := Byte.to_N y in
            if (128 <=? m)%N && (m <? 192)%N
            then option_map
                   (String (ascii_of_N ((n - 192) * 64 + (m - 128))))
                   (utf8_decode rest')
            else None
        | [] => None
        end
      else None
  end.

(** The truth value of an optional string: [None] and the empty string are
    falsy. *)
Definition truthy (o : option string) : bool :=
  match o with
  | Some (String _ _) => true
  | _ => false
  end.

(** How an f-string renders an optional string. *)
Definition format_opt (o : option string) : string :=
  match o with
  | Some s => s
  | None => "None"
  end.

Definition DQUOTE : ascii := ascii_of_N 34.
Definition SQUOTE : ascii := ascii_of_N 39.

(** [shlex.quote]: the empty string becomes two single quotes, a string of
    safe characters only is returned as it is, anything else is wrapped in
    single quotes with every single quote replaced by the five characters
    quote, double quote, quote, double quote, quote. *)
Definition shlex_safe (c : ascii) : bool := is_alnum c || mem "_@%+=:,./-" c.

Definition quote_escape : string :=
  String SQUOTE (String DQUOTE (String SQUOTE (String DQUOTE
    (String SQUOTE EmptyString)))).

Definition shlex_quote (s : string) : string :=
  if is_empty s then "''"
  else if all_chars shlex_safe s then s
  else "'" ++ replace "'" quote_escape s ++ "'".

End Py.

(** ** Artifact names *)

(** The character class [A-Za-z0-9_.-] of both sanitizers. *)
Definition name_char (c : ascii) : bool :=
  Py.is_alnum c || Py.mem "_.-" c.

(** [safe_file_name], lines 153-157. *)
Definition safe_file_name (src_path : string) : string :=
  let cleaned := Py.lstrip_chars "/" (Py.strip src_path) in
  let cleaned := Py.replace "/" "__" cleaned in
  let cleaned := Py.re_sub_neg_class_plus name_char "_" cleaned in
  Py.or_else cleaned "unknown_path".

(** [sanitize_target], lines 72-73. *)
Definition sanitize_target (raw : string) : string :=
  Py.or_else
    (Py.strip_chars "_" (Py.re_sub_neg_class_plus name_char "_" raw))
    "target".


(** ** Data model *)

(** [CmdResult], lines 20-31. *)
Module Cmd.
Record t : Type := mk {
  name : string;
  command : string;
  returncode : Z;
  stdout : string;
  stderr : string;
  duration_ms : Z
}.

Definition ok (r : t) : bool := (returncode r =? 0)%Z.

Definition set_name (n : string) (r : t) : t :=
  mk n (command r) (returncode r) (stdout r) (stderr r) (duration_ms r).
End Cmd.

(** The parsed command line, [parse_args], lines 44-61. *)
Inductive run_mode : Type := Local | Ssh.

Module Args.
Record t : Type := mk {
  mode : run_mode;
  host : option string;
  user : option string;
  port_ssh : Z;
  identity : option string;
  service : string;
  since : string;
  out : string;
  include : string
}.
End Args.

Definition mode_text (m : run_mode) : string :=
  match m with
  | Local => "local"
  | Ssh => "ssh"
  end.

(** One entry of the manifest's [command_results], lines 252-261. *)
Module Summary.
Record t : Type := mk {
  name : string;
  command : string;
  returncode : Z;
  duration_ms : Z;
  stdout_bytes : Z;
  stderr_bytes : Z
}.
End Summary.

(** One entry of the manifest's [included_files], lines 273-277. *)
Module Item.
Record t : Type := mk {
  path : string;
  collected : bool;
  reason : string
}.
End Item.

(** The manifest dictionary, lines 308-320. *)
Module Manifest.
Record t : Type := mk {
  target : string;
  mode : string;
  service : option string;
  since : string;
  started_at : string;
  finished_at : string;
  duration_ms : Z;
  command_results : list Summary.t;
  included_files : list Item.t;
  overall_status : string;
  collector_host : string
}.

(** [manifest["overall_status"] = v]. *)
Definition set_overall_status (v : string) (m : t) : t :=
  mk (target m) (mode m) (service m) (since m) (started_at m) (finished_at m)
     (duration_ms m) (command_results m) (included_files m) v
     (collector_host m).
End Manifest.

(** ** The world the script runs in *)

(** What [TimeoutExpired] carries as partial output: nothing, bytes or text. *)
Inductive pyval : Type :=
| PyNone
| PyBytes (b : list Byte.byte)
| PyStr (s : string).

(** How one [subprocess.run(..., text=True)] ends: it returns, it raises
    [TimeoutExpired] (with the partial output and the text of the
    exception), the process cannot be started ([OSError], with its text), or
    the process has ended but what it printed is no text in the encoding of
    the locale ([UnicodeDecodeError], with its text). *)
Inductive proc_end : Type :=
| Completed (rc : Z) (out err : string)
| TimedOut (out err : pyval) (text : string)
| SpawnFailed (text : string)
| Undecodable (text : string).

Record proc : Type := mk_proc {
  proc_end_of : proc_end;
  elapsed_ms : Z
}.

(** How one [mkdir] ends: done, [FileExistsError], another [OSError]. *)
Inductive mkdir_end : Type :=
| MkdirOk
| MkdirExists (text : string)
| MkdirOSError (text : string).

(** What is written to a file: text, or the manifest (whose JSON rendering
    is not unfolded). *)
Inductive content : Type :=
| Text (s : string)
| Json (m : Manifest.t).

(** Every interaction with the outside, with its answer. *)
Inductive event : Type :=
| Print (line : string)
| Spawn (argv : list string) (timeout : Z) (p : proc)
| Mkdir (path : string) (exist_ok : bool) (r : mkdir_end)
| WriteText (path : string) (c : content) (err : option string)
| TarGz (archive dir : string) (err : option string).

(** A trace lists the events so far, the latest first. *)
Definition trace : Type := list event.

(** The outside: every answer is a function of the events so far.
    - [decode_lossy]: [bytes.decode("utf-8", errors="replace")] of bytes
      that [Py.utf8_decode] does not decode, where the text has replacement
      characters or code points from 256 on;
    - [subprocess_run_end]: how [subprocess.run] of an argument vector ends
      under a timeout;
    - [mkdir_end_of]: [Path.mkdir(parents=True, exist_ok=...)];
    - [write_error], [tar_error]: the [OSError] of [Path.write_text] and of
      packing a directory with [tarfile], if any;
    - [clock_iso], [clock_slug], [clock_elapsed_ms]: the readings of the
      clock in [now_iso], [timestamp_slug] and between the two calls of
      [time.monotonic] of [collect_bundle];
    - [expanduser]: [Path(p).expanduser()], as [str] renders it (without
      a trailing separator or a leading [./]);
    - [gethostname]: [socket.gethostname()]. *)
Record Env : Type := mk_env {
  decode_lossy : list Byte.byte -> string;
  subprocess_run_end : trace -> list string -> Z -> proc;
  mkdir_end_of : trace -> string -> bool -> mkdir_end;
  write_error : trace -> string -> option string;
  tar_error : trace -> string -> string -> option string;
  clock_iso : trace -> string;
  clock_slug : trace -> string;
  clock_elapsed_ms : trace -> Z;
  expanduser : string -> string;
  gethostname : string
}.

(** The exceptions of the script. *)
Inductive exn : Type :=
| OSError (text : string)
| FileExistsError (text : string)
| UnicodeDecodeError (text : string)
| IndexError.

Inductive res (A : Type) : Type :=
| Ret (a : A)
| Raise (e : exn).
Arguments Ret {A} a.
Arguments Raise {A} e.

(** Computations of the script: they extend the trace, and return or raise. *)
Definition M (A : Type) : Type := trace -> trace * res A.

Definition ret {A} (a : A) : M A := fun t => (t, Ret a).
Definition raise {A} (e : exn) : M A := fun t => (t, Raise e).

Definition bind {A B} (m : M A) (k : A -> M B) : M B :=
  fun t =>
    match m t with
    | (t', Ret a) => k a t'
    | (t', Raise e) => (t', Raise e)
    end.

(** [try: m], with the exception handed to the caller as a value. *)
Definition attempt {A} (m : M A) : M (res A) :=
  fun t => let '(t', r) := m t in (t', Ret r).

Notation "x <- c1 ;; c2" := (bind c1 (fun x => c2))
  (at level 61, c1 at next level, right associativity).
Notation "c1 ;; c2" := (bind c1 (fun _ => c2))
  (at level 61, right associativity).

(** A [for] loop that carries its variables through the iterations. *)
Fixpoint for_each {A S} (body : S -> A -> M S) (xs : list A) (s : S) : M S :=
  match xs with
  | [] => ret s
  | x :: rest => s' <- body s x ;; for_each body rest s'
  end.

(** ** The script *)

(** Whether the last character of a string satisfies [p]. *)
Fixpoint ends_with (p : ascii -> bool) (s : string) : bool :=
  match s with
  | EmptyString => false
  | String c EmptyString => p c
  | String _ rest => ends_with p rest
  end.

(** [pathlib]: [dir / name] as [str] renders it, for a relative [name] and
    a [dir] as [pathlib] renders it, and [p.name], the last component of
    [p].  Joining to the current directory [.] gives the name alone, and no
    separator is added after a root. *)
Definition path_join (dir name : string) : string :=
  if String.eqb dir "." then name
  else if ends_with (Ascii.eqb "/") dir then dir ++ name
  else dir ++ "/" ++ name.

Fixpoint path_name (p : string) : string :=
  match p with
  | EmptyString => EmptyString
  | String c rest =>
      if Py.all_chars (fun d => negb (Ascii.eqb d "/")) rest
      then (if Ascii.eqb c "/" then rest else p)
      else path_name rest
  end.

Definition NL : string := String Py.LF EmptyString.

(** [include_paths], lines 148-150. *)
Definition include_paths (raw : string) : list string :=
  let values := map Py.strip (Py.split "," raw) in
  filter (fun item => negb (Py.is_empty item)) values.

(** [build_commands], lines 172-201. *)
Definition build_commands (service since : string) : list (string * string) :=
  let q_since := Py.shlex_quote since in
  let commands :=
    [ ("hostnamectl", "hostnamectl");
      ("date_iso", "date -Is");
      ("uptime", "uptime");
      ("journal_errors",
        "journalctl -p err --since " ++ q_since ++ " --no-pager");
      ("dmesg_tail", "dmesg -T | tail -n 400");
      ("ss_tulpen", "ss -tulpen");
      ("df_h", "df -h");
      ("df_i", "df -i");
      ("free_m", "free -m") ] in
  if negb (Py.is_empty service) then
    let q_service := Py.shlex_quote service in
    let service_commands :=
      [ ("journal_service",
          "journalctl -u " ++ q_service ++ " --since " ++ q_since
            ++ " --no-pager");
        ("systemctl_status",
          "systemctl status " ++ q_service ++ " --no-pager");
        ("systemctl_show",
          "systemctl show " ++ q_service ++ " "
            ++ "-p ActiveState,SubState,ExecMainStatus,ExecMainStartTimestamp")
      ] in
    (commands ++ service_commands)%list
  else commands.

(** The probe and fetch commands of the include loop, lines 264-269, 291. *)
Definition check_cmd_of (file_path : string) : string :=
  let q := Py.shlex_quote file_path in
  "if [ -e " ++ q ++ " ]; then "
  ++ "if [ -r " ++ q ++ " ]; then echo READABLE; else echo UNREADABLE; fi; "
  ++ "else echo MISSING; fi".

Definition cat_cmd_of (file_path : string) : string :=
  "cat " ++ Py.shlex_quote file_path.

(** [build_ssh_base], lines 76-93.  It is only reached in ssh mode, after
    [collect_bundle] has checked that the host is set. *)
Definition build_ssh_base (a : Args.t) : list string :=
  let target :=
    if Py.truthy (Args.user a)
    then Py.format_opt (Args.user a) ++ "@" ++ Py.format_opt (Args.host a)
    else Py.format_opt (Args.host a) in
  (["ssh"; "-o"; "BatchMode=yes"; "-o"; "ConnectTimeout=5"; "-p";
    Py.str_of_int (Args.port_ssh a)]
   ++ (if Py.truthy (Args.identity a)
       then ["-i"; Py.format_opt (Args.identity a)] else [])
   ++ [target])%list.

(** The argument vector of [run_target], lines 100-103. *)
Definition full_cmd_of (a : Args.t) (command : string) : list string :=
  match Args.mode a with
  | Local => ["bash"; "-lc"; command]
  | Ssh => (build_ssh_base a ++ ["bash"; "-lc"; command])%list
  end.

Section Script.

Variable E : Env.

(** *** Primitive interactions *)

Definition print (line : string) : M unit :=
  fun t => (Print line :: t, Ret tt).

Definition subprocess_run (argv : list string) (timeout : Z) : M proc :=
  fun t =>
    let p := subprocess_run_end E t argv timeout in
    (Spawn argv timeout p :: t, Ret p).

Definition mkdir (path : string) (exist_ok : bool) : M unit :=
  fun t =>
    let r := mkdir_end_of E t path exist_ok in
    (Mkdir path exist_ok r :: t,
     match r with
     | MkdirOk => Ret tt
     | MkdirExists text => Raise (FileExistsError text)
     | MkdirOSError text => Raise (OSError text)
     end).

Definition write_text (path : string) (c : content) : M unit :=
  fun t =>
    let err := write_error E t path in
    (WriteText path c err :: t,
     match err with
     | None => Ret tt
     | Some text => Raise (OSError text)
     end).

Definition tar_gz (archive dir : string) : M unit :=
  fun t =>
    let err := tar_error E t archive dir in
    (TarGz archive dir err :: t,
     match err with
     | None => Ret tt
     | Some text => Raise (OSError text)
     end).

(** [now_iso], [timestamp_slug], lines 64-69, and the elapsed time between
    the two readings of [time.monotonic] in [collect_bundle]. *)
Definition now_iso : M string := fun t => (t, Ret (clock_iso E t)).
Definition timestamp_slug : M string := fun t => (t, Ret (clock_slug E t)).
Definition elapsed_since_start : M Z :=
  fun t => (t, Ret (clock_elapsed_ms E t)).

(** [bytes.decode("utf-8", errors="replace")]: the text itself where it is
    well formed and stays below code point 256, the world's answer
    elsewhere. *)
Definition decode_replace (b : list Byte.byte) : string :=
  match Py.utf8_decode b with
  | Some s => s
  | None => decode_lossy E b
  end.

(** [as_text], lines 34-41. *)
Definition as_text (value : pyval) : string :=
  match value with
  | PyNone => EmptyString
  | PyBytes b => decode_replace b
  | PyStr s => s
  end.

(** [run_target], lines 96-129. *)
Definition run_target (a : Args.t) (command : string) (timeout : Z)
    : M Cmd.t :=
  let full_cmd := full_cmd_of a command in
  p <- subprocess_run full_cmd timeout ;;
  match proc_end_of p with
  | Completed rc out err =>
      ret (Cmd.mk EmptyString command rc out err (elapsed_ms p))
  | TimedOut out err _ =>
      ret (Cmd.mk EmptyString command 124 (as_text out)
             (as_text err ++ NL ++ "Timed out after "
                ++ Py.str_of_int timeout ++ "s")
             (elapsed_ms p))
  | SpawnFailed text => raise (OSError text)
  | Undecodable text => raise (UnicodeDecodeError text)
  end.

(** [write_command_log], lines 132-145. *)
Definition write_command_log (path : string) (result : Cmd.t) : M unit :=
  let payload :=
    [ "# command: " ++ Cmd.command result;
      "# returncode: " ++ Py.str_of_int (Cmd.returncode result);
      "# duration_ms: " ++ Py.str_of_int (Cmd.duration_ms result);
      EmptyString;
      "## stdout";
      Py.rstrip (Cmd.stdout result);
      EmptyString;
      "## stderr";
      Py.rstrip (Cmd.stderr result);
      EmptyString ] in
  write_text path (Text (Py.join NL payload)).

(** [check_ssh_connectivity], lines 160-169. *)
Definition check_ssh_connectivity (a : Args.t) : M (bool * string) :=
  p <- subprocess_run (build_ssh_base a ++ ["true"])%list 10 ;;
  match proc_end_of p with
  | TimedOut _ _ text => ret (false, text)
  | SpawnFailed text => ret (false, text)
  | Undecodable text => raise (UnicodeDecodeError text)
  | Completed rc out err =>
      if negb (rc =? 0)%Z
      then ret (false, Py.strip (Py.or_else (Py.or_else err out) "ssh failed"))
      else ret (true, EmptyString)
  end.

(** [make_bundle_layout], lines 204-211. *)
Definition make_bundle_layout (out_dir target : string)
    : M (string * string * string) :=
  ts <- timestamp_slug ;;
  let bundle_dir := path_join out_dir ("incident_" ++ target ++ "_" ++ ts) in
  let commands_dir := path_join bundle_dir "commands" in
  let files_dir := path_join bundle_dir "files" in
  mkdir commands_dir false ;;
  mkdir files_dir false ;;
  ret (bundle_dir, commands_dir, files_dir).

(** *** [collect_bundle], lines 214-341 *)

(** The body of the catalog loop, lines 246-261. *)
Definition run_catalog_entry (a : Args.t) (commands_dir : string)
    (st : bool * list Summary.t) (entry : string * string)
    : M (bool * list Summary.t) :=
  let '(any_failures, command_results) := st in
  let '(name, cmd) := entry in
  result <- run_target a cmd 60 ;;
  let result := Cmd.set_name name result in
  write_command_log (path_join commands_dir (name ++ ".log")) result ;;
  let any_failures := if negb (Cmd.ok result) then true else any_failures in
  ret (any_failures,
       (command_results ++
        [Summary.mk name cmd (Cmd.returncode result) (Cmd.duration_ms result)
           (Py.utf8_len (Cmd.stdout result))
           (Py.utf8_len (Cmd.stderr result))])%list).

(** [xs[0]]. *)
Definition first_item (xs : list string) : M string :=
  match xs with
  | x :: _ => ret x
  | [] => raise IndexError
  end.

(** The probe's state word, line 271. *)
Definition probe_state (check_res : Cmd.t) : M string :=
  first_item
    (Py.splitlines (Py.or_else (Py.strip (Cmd.stdout check_res)) "UNKNOWN")).

(** The body of the include loop, lines 263-302. *)
Definition collect_include (a : Args.t) (files_dir : string)
    (st : bool * list Item.t) (file_path : string) : M (bool * list Item.t) :=
  let '(any_failures, include_results) := st in
  check_res <- run_target a (check_cmd_of file_path) 20 ;;
  state <- probe_state check_res ;;
  if negb (Cmd.returncode check_res =? 0)%Z || String.eqb state "UNKNOWN"
  then
    ret (true,
         (include_results ++
          [Item.mk file_path false
             (Py.or_else (Py.strip (Cmd.stderr check_res))
                "cannot inspect file")])%list)
  else if negb (String.eqb state "READABLE")
  then
    ret (true,
         (include_results ++ [Item.mk file_path false (Py.lower state)])%list)
  else
    (cat_res <- run_target a (cat_cmd_of file_path) 30 ;;
     if negb (Cmd.returncode cat_res =? 0)%Z
     then
       ret (true,
            (include_results ++
             [Item.mk file_path false
                (Py.or_else (Py.strip (Cmd.stderr cat_res)) "cat failed")])%list)
     else
       (let output_name := safe_file_name file_path ++ ".txt" in
        write_text (path_join files_dir output_name)
          (Text (Cmd.stdout cat_res)) ;;
        ret (any_failures,
             (include_results ++
              [Item.mk file_path true EmptyString])%list))).

(** Lines 304-341: the manifest, the archive and the exit code. *)
Definition finish_bundle (a : Args.t) (started_iso target_display : string)
    (out_dir bundle_dir : string) (any_failures : bool)
    (command_results : list Summary.t) (include_results : list Item.t)
    : M Z :=
  finished_iso <- now_iso ;;
  duration_ms <- elapsed_since_start ;;
  let overall_status := if any_failures then "partial" else "ok" in
  let manifest :=
    Manifest.mk target_display (mode_text (Args.mode a))
      (if Py.is_empty (Args.service a) then None else Some (Args.service a))
      (Args.since a) started_iso finished_iso duration_ms
      command_results include_results overall_status (gethostname E) in
  write_text (path_join bundle_dir "manifest.json") (Json manifest) ;;
  let archive_path := path_join out_dir (path_name bundle_dir ++ ".tar.gz") in
  packed <- attempt (tar_gz archive_path bundle_dir) ;;
  match packed with
  | Raise (OSError text) | Raise (FileExistsError text) =>
      print ("ERROR: failed to create archive: " ++ text) ;;
      let manifest := Manifest.set_overall_status "error" manifest in
      write_text (path_join bundle_dir "manifest.json") (Json manifest) ;;
      ret 2%Z
  | Raise e => raise e
  | Ret _ =>
      print ("Bundle directory: " ++ bundle_dir) ;;
      print ("Bundle archive:   " ++ archive_path) ;;
      print ("Overall status:   " ++ Manifest.overall_status manifest) ;;
      ret (if any_failures then 1 else 0)%Z
  end.

Definition collect_bundle (a : Args.t) : M Z :=
  started_iso <- now_iso ;;
  if match Args.mode a with Ssh => negb (Py.truthy (Args.host a))
                          | Local => false end
  then print "ERROR: --host is required in ssh mode" ;; ret 2%Z
  else
    let target_display :=
      match Args.mode a with
      | Local => "local"
      | Ssh => if Py.truthy (Args.host a) then Py.format_opt (Args.host a)
               else "unknown"
      end in
    probe <-
      match Args.mode a with
      | Ssh => check_ssh_connectivity a
      | Local => ret (true, EmptyString)
      end ;;
    let '(ok, msg) := probe in
    if negb ok
    then print ("ERROR: SSH connectivity check failed: " ++ msg) ;; ret 2%Z
    else
      (let out_dir := expanduser E (Args.out a) in
       mkdir out_dir true ;;
       let target_slug := sanitize_target target_display in
       layout <- attempt (make_bundle_layout out_dir target_slug) ;;
       match layout with
       | Raise (FileExistsError _) =>
           print "ERROR: bundle directory already exists, try again in a second" ;;
           ret 2%Z
       | Raise (OSError text) =>
           print ("ERROR: cannot create bundle directories: " ++ text) ;;
           ret 2%Z
       | Raise e => raise e
       | Ret (bundle_dir, commands_dir, files_dir) =>
           st1 <- for_each (run_catalog_entry a commands_dir)
                    (build_commands (Args.service a) (Args.since a))
                    (false, []) ;;
           let '(any_failures, command_results) := st1 in
           st2 <- for_each (collect_include a files_dir)
                    (include_paths (Args.include a))
                    (any_failures, []) ;;
           let '(any_failures, include_results) := st2 in
           finish_bundle a started_iso target_display out_dir bundle_dir
             any_failures command_results include_results
       end).

(** [main], lines 344-349, from the parsed arguments on. *)
Definition main (a : Args.t) : M Z :=
  if (Args.port_ssh a <? 1)%Z || (Args.port_ssh a >? 65535)%Z
  then print "ERROR: --port-ssh must be between 1 and 65535" ;; ret 2%Z
  else collect_bundle a.

End Script.

(** ** How a POSIX shell reads command text

    Token recognition and quote removal of the shell command language, for
    the fragment without expansions: blanks separate words, the operator
    characters stand alone, single quotes keep everything up to the next
    single quote, double quotes keep everything but the backslash escapes,
    a backslash keeps the next character.  A dollar sign or a backquote
    outside single quotes, and a comment, leave the fragment.  Each
    character of a word remembers whether it was quoted. *)

Module Sh.

Record wchar : Type := mk_wchar { ch : ascii; quoted : bool }.

Definition word : Type := list wchar.

Inductive token : Type :=
| Word (w : word)
| Op (c : ascii).

Inductive lex_mode : Type :=
| Bare
| BareEscape
| InSingle
| InDouble
| InDoubleEscape.

Record state : Type := mk_state {
  mode : lex_mode;
  cur : option word;
  done : list token
}.

Definition initial : state := mk_state Bare None [].

Definition push (c : ascii) (q : bool) (cur : option word) : option word :=
  match cur with
  | None => Some [mk_wchar c q]
  | Some w => Some (w ++ [mk_wchar c q])%list
  end.

Definition open_word (cur : option word) : option word :=
  match cur with
  | None => Some []
  | Some w => Some w
  end.

Definition flush (cur : option word) (done : list token) : list token :=
  match cur with
  | None => done
  | Some w => (done ++ [Word w])%list
  end.

Definition TAB : ascii := ascii_of_N 9.
Definition is_blank (c : ascii) : bool := Ascii.eqb c " " || Ascii.eqb c TAB.
Definition is_operator (c : ascii) : bool := Py.mem "|&;<>()" c.
Definition BACKSLASH : ascii := ascii_of_N 92.
Definition is_expansion (c : ascii) : bool := Py.mem "$`" c.

Definition step (s : state) (c : ascii) : option state :=
  match mode s with
  | Bare =>
      if Ascii.eqb c Py.SQUOTE then
        Some (mk_state InSingle (open_word (cur s)) (done s))
      else if Ascii.eqb c Py.DQUOTE then
        Some (mk_state InDouble (open_word (cur s)) (done s))
      else if Ascii.eqb c BACKSLASH then
        Some (mk_state BareEscape (cur s) (done s))
      else if is_blank c then
        Some (mk_state Bare None (flush (cur s) (done s)))
      else if Ascii.eqb c Py.LF || is_operator c then
        Some (mk_state Bare None (flush (cur s) (done s) ++ [Op c])%list)
      else if is_expansion c then None
      else if Ascii.eqb c "#" && match cur s with None => true | _ => false end
      then None
      else Some (mk_state Bare (push c false (cur s)) (done s))
  | BareEscape =>
      if Ascii.eqb c Py.LF then Some (mk_state Bare (cur s) (done s))
      else Some (mk_state Bare (push c true (cur s)) (done s))
  | InSingle =>
      if Ascii.eqb c Py.SQUOTE then Some (mk_state Bare (cur s) (done s))
      else Some (mk_state InSingle (push c true (cur s)) (done s))
  | InDouble =>
      if Ascii.eqb c Py.DQUOTE then Some (mk_state Bare (cur s) (done s))
      else if Ascii.eqb c BACKSLASH then
        Some (mk_state InDoubleEscape (cur s) (done s))
      else if is_expansion c then None
      else Some (mk_state InDouble (push c true (cur s)) (done s))
  | InDoubleEscape =>
      if Ascii.eqb c Py.LF then Some (mk_state InDouble (cur s) (done s))
      else if is_expansion c || Ascii.eqb c Py.DQUOTE || Ascii.eqb c BACKSLASH
      then Some (mk_state InDouble (push c true (cur s)) (done s))
      else Some (mk_state InDouble
                   (push c true (push BACKSLASH true (cur s))) (done s))
  end.

Fixpoint run (s : state) (text : string) : option state :=
  match text with
  | EmptyString => Some s
  | String c rest =>
      match step s c with
      | Some s' => run s' rest
      | None => None
      end
  end.

(** The tokens of a complete command text; [None] when a quote is left
    open or the text leaves the fragment. *)
Definition lex (text : string) : option (list token) :=
  match run initial text with
  | Some s =>
      match mode s with
      | Bare => Some (flush (cur s) (done s))
      | _ => None
      end
  | None => None
  end.

(** The text a word stands for after quote removal. *)
Fixpoint value (w : word) : string :=
  match w with
  | [] => EmptyString
  | x :: rest => String (ch x) (value rest)
  end.

(** A word typed without quotes. *)
Fixpoint bare (s : string) : word :=
  match s with
  | EmptyString => []
  | String c rest => mk_wchar c false :: bare rest
  end.


Definition W (s : string) : token := Word (bare s).

End Sh.

(** ** The specification's wording of the sanitizer, for comparison *)

Module Spec.

(** "strip a single leading path separator" *)
Definition strip_one_leading_sep (s : string) : string :=
  match s with
  | String c rest => if Ascii.eqb c "/" then rest else s
  | EmptyString => EmptyString
  end.

(** "replace every remaining path separator with a double-underscore" *)
Fixpoint seps_to_dunder (s : string) : string :=
  match s with
  | EmptyString => EmptyString
  | String c rest =>
      if Ascii.eqb c "/" then String "_" (String "_" (seps_to_dunder rest))
      else String c (seps_to_dunder rest)
  end.

(** "replace every character outside [A-Za-z0-9_.-] with an underscore" *)
Fixpoint each_outside_to_underscore (s : string) : string :=
  match s with
  | EmptyString => EmptyString
  | String c rest =>
      String (if name_char c then c else "_"%char)
        (each_outside_to_underscore rest)
  end.

(** "an empty result becomes a fixed placeholder name" *)
Definition safe_file_name (src_path : string) : string :=
  Py.or_else
    (each_outside_to_underscore
       (seps_to_dunder (strip_one_leading_sep src_path)))
    "unknown_path".

End Spec.

Definition starts_outside (s : string) : bool :=
  match s with
  | String c _ => negb (name_char c)
  | EmptyString => false
  end.

(** What the code does where the wording differs: [Squeezed s t] when [t]
    is [s] with every maximal run of characters outside the class replaced
    by one underscore. *)
Inductive Squeezed : string -> string -> Prop :=
| Squeezed_nil : Squeezed EmptyString EmptyString
| Squeezed_keep c s t :
    name_char c = true -> Squeezed s t -> Squeezed (String c s) (String c t)
| Squeezed_run run s t :
    run <> EmptyString ->
    Py.all_chars (fun c => negb (name_char c)) run = true ->
    starts_outside s = false ->
    Squeezed s t -> Squeezed (run ++ s) (String "_" t).

(** Whether a string starts with white space, or ends with it. *)
Definition starts_with_space (s : string) : bool :=
  match s with
  | String c _ => Py.isspace c
  | EmptyString => false
  end.

Definition ends_with_space (s : string) : bool := ends_with Py.isspace s.

(** The probe outcome as the specification words it: a failed probe or a
    state that is none of the three words gives the probe's stderr or the
    fixed text; MISSING and UNREADABLE give the lowercased word; READABLE
    gives no reason yet, the contents are fetched. *)
Module SpecProbe.

Definition recognized (state : string) : bool :=
  String.eqb state "MISSING" || String.eqb state "READABLE"
  || String.eqb state "UNREADABLE".

Definition reason (check_res : Cmd.t) (state : string) : option string :=
  if negb (Cmd.returncode check_res =? 0)%Z || negb (recognized state)
  then Some (Py.or_else (Cmd.stderr check_res) "cannot inspect file")
  else if String.eqb state "READABLE" then None
  else Some (Py.lower state).

End SpecProbe.

(** ** Reading a trace *)

(** The manifests handed to [Path.write_text], oldest first, with the path
    of each; [manifest_write_errors] tells which of the writes succeeded. *)
Fixpoint manifest_writes (t : trace) : list (string * Manifest.t) :=
  match t with
  | [] => []
  | WriteText path (Json m) _ :: older =>
      (manifest_writes older ++ [(path, m)])%list
  | _ :: older => manifest_writes older
  end.

(** What the manifest writes met, oldest first: [None] where the write
    succeeded, the text of the [OSError] elsewhere. *)
Fixpoint manifest_write_errors (t : trace) : list (option string) :=
  match t with
  | [] => []
  | WriteText _ (Json _) err :: older =>
      (manifest_write_errors older ++ [err])%list
  | _ :: older => manifest_write_errors older
  end.

Definition is_archive_failure (e : event) : bool :=
  match e with
  | TarGz _ _ (Some _) => true
  | _ => false
  end.

(** A directory of the bundle layout (created with [exist_ok=False]) that
    could not be created. *)
Definition is_layout_failure (e : event) : bool :=
  match e with
  | Mkdir _ false MkdirOk => false
  | Mkdir _ false _ => true
  | _ => false
  end.

(** A connectivity check that the script reports as failed: the process
    exits with another code than 0, exceeds the timeout or cannot be
    started. *)
Definition failed_check (p : proc) : bool :=
  match proc_end_of p with
  | Completed rc _ _ => negb (rc =? 0)%Z
  | TimedOut _ _ _ => true
  | SpawnFailed _ => true
  | Undecodable _ => false
  end.

(** The connectivity probe is the one process run with a timeout of 10
    seconds. *)
Definition is_probe_failure (e : event) : bool :=
  match e with
  | Spawn _ timeout p => (timeout =? 10)%Z && failed_check p
  | _ => false
  end.

(** An archive that was packed. *)
Definition is_archive_success (e : event) : bool :=
  match e with
  | TarGz _ _ None => true
  | _ => false
  end.

Definition archive_failed (t : trace) : bool := existsb is_archive_failure t.
Definition archived (t : trace) : bool := existsb is_archive_success t.
Definition layout_failed (t : trace) : bool := existsb is_layout_failure t.
Definition probe_failed (t : trace) : bool := existsb is_probe_failure t.

Definition host_missing (a : Args.t) : bool :=
  match Args.mode a with
  | Ssh => negb (Py.truthy (Args.host a))
  | Local => false
  end.

(** [target_display], line 222. *)
Definition target_display_of (a : Args.t) : string :=
  match Args.mode a with
  | Local => "local"
  | Ssh => if Py.truthy (Args.host a) then Py.format_opt (Args.host a)
           else "unknown"
  end.

(** The fatal errors of a run. *)
Definition fatal (a : Args.t) (t : trace) : bool :=
  host_missing a || probe_failed t || layout_failed t || archive_failed t.


(** The two states of an include-file record. *)
Definition item_wf (i : Item.t) : Prop :=
  (Item.collected i = true /\ Item.reason i = EmptyString)
  \/ (Item.collected i = false /\ Item.reason i <> EmptyString).

(** The exception of the latest event, when the script has no handler for
    it: a command, a file probe or a fetch that could not be started, a
    process whose output could not be decoded, a file that could not be
    written, the output directory that could not be created. *)
Definition unhandled (t : trace) : option exn :=
  match t with
  | Spawn _ timeout p :: _ =>
      match proc_end_of p with
      | SpawnFailed text =>
          if (timeout =? 10)%Z then None else Some (OSError text)
      | Undecodable text => Some (UnicodeDecodeError text)
      | _ => None
      end
  | WriteText _ _ (Some text) :: _ => Some (OSError text)
  | Mkdir _ true (MkdirExists text) :: _ => Some (FileExistsError text)
  | Mkdir _ true (MkdirOSError text) :: _ => Some (OSError text)
  | _ => None
  end.

(** The events of the two loops: they run no connectivity probe, create no
    directory, write no manifest and pack no archive. *)
Definition quiet_event (e : event) : bool :=
  match e with
  | Print _ => true
  | Spawn _ timeout _ => negb (timeout =? 10)%Z
  | WriteText _ (Text _) _ => true
  | _ => false
  end.

(** The exit code [run_target] reports for a process, when it reports
    one. *)
Definition exit_code_of (p : proc) : option Z :=
  match proc_end_of p with
  | Completed rc _ _ => Some rc
  | TimedOut _ _ _ => Some 124%Z
  | SpawnFailed _ => None
  | Undecodable _ => None
  end.

Definition exits_with_0 (p : proc) : bool :=
  match exit_code_of p with
  | Some rc => (rc =? 0)%Z
  | None => false
  end.

(** The catalog commands are the processes run with a timeout of 60
    seconds: their argument vectors and exit codes, oldest first. *)
Fixpoint catalog_runs (t : trace) : list (list string * Z) :=
  match t with
  | [] => []
  | Spawn argv timeout p :: older =>
      match exit_code_of p with
      | Some rc =>
          if (timeout =? 60)%Z then (catalog_runs older ++ [(argv, rc)])%list
          else catalog_runs older
      | None => catalog_runs older
      end
  | _ :: older => catalog_runs older
  end.

(** The include paths are probed by the processes run with a timeout of 20
    seconds and fetched by those run with a timeout of 30 seconds.  The
    outcomes a trace shows, oldest first: one per probe, [true] when the
    probe was followed by a fetch that exited with 0.  Reading the latest
    event first, [fetched] tells whether such a fetch has been met since the
    last probe. *)
Fixpoint file_outcomes_from (fetched : bool) (t : trace) : list bool :=
  match t with
  | [] => []
  | Spawn _ timeout p :: older =>
      if (timeout =? 20)%Z
      then (file_outcomes_from false older ++ [fetched])%list
      else if (timeout =? 30)%Z
      then file_outcomes_from (exits_with_0 p) older
      else file_outcomes_from fetched older
  | _ :: older => file_outcomes_from fetched older
  end.

Definition file_outcomes (t : trace) : list bool :=
  file_outcomes_from false t.

(** Every catalog command exited with 0 and every include path was
    fetched. *)
Definition run_ok (t : trace) : bool :=
  forallb (fun r => (snd r =? 0)%Z) (catalog_runs t)
  && forallb (fun b => b) (file_outcomes t).

(** In ssh mode the connectivity probe was run and exited with 0. *)
Definition probe_passed (a : Args.t) (t : trace) : Prop :=
  match Args.mode a with
  | Local => True
  | Ssh =>
      exists p,
        In (Spawn (build_ssh_base a ++ ["true"])%list 10 p) t
        /\ exit_code_of p = Some 0%Z
  end.

(** The two directories of the bundle [bd] were created. *)
Definition layout_created (bd : string) (t : trace) : Prop :=
  In (Mkdir (path_join bd "commands") false MkdirOk) t
  /\ In (Mkdir (path_join bd "files") false MkdirOk) t.

(** What a loop computation is known to do from any trace: it adds quiet
    events only, and either returns a value that satisfies [P] together
    with the events added, or raises the exception of its latest event,
    for which the script has no handler. *)
Definition loop_spec {A} (m : M A) (P : A -> trace -> Prop) : Prop :=
  forall t,
    exists new,
      fst (m t) = (new ++ t)%list
      /\ forallb quiet_event new = true
      /\ match snd (m t) with
         | Ret a => P a new
         | Raise e => unhandled (new ++ t)%list = Some e
         end.

(** A word in the shell's single quotes. *)
Fixpoint inside_quotes (s : string) : Sh.word :=
  match s with
  | EmptyString => []
  | String c rest => Sh.mk_wchar c true :: inside_quotes rest
  end.

(** ** Invariants of a run *)

(** Nothing fatal has happened, no manifest is written and no archive is
    packed yet. *)
Definition clean (t : trace) : Prop :=
  manifest_writes t = [] /\ archive_failed t = false
  /\ layout_failed t = false /\ probe_failed t = false
  /\ archived t = false.

(** What the manifest says of the catalog commands: argument vector and
    exit code of each. *)
Definition recorded_runs (a : Args.t) (crs : list Summary.t)
    : list (list string * Z) :=
  map (fun s => (full_cmd_of a (Summary.command s), Summary.returncode s)) crs.

(** Before the loops: nothing fatal has happened, and no catalog command,
    file probe or fetch has been run. *)
Definition fresh (t : trace) : Prop :=
  clean t /\ catalog_runs t = []
  /\ forall fetched, file_outcomes_from fetched t = [].

(** The catalog loop keeps the failure flag equal to "some recorded exit
    code is not 0", records the entries in order, records of each the exit
    code of its process, and touches no include path. *)
Definition catalog_inv (a : Args.t) (seen : list (string * string))
    (st : bool * list Summary.t) (new : trace) : Prop :=
  fst st = negb (forallb (fun s => (Summary.returncode s =? 0)%Z) (snd st))
  /\ map (fun s => (Summary.name s, Summary.command s)) (snd st) = seen
  /\ catalog_runs new = recorded_runs a (snd st)
  /\ forall fetched, file_outcomes_from fetched new = [].

(** The include loop: the flag also records an uncollected file, there is
    one record per path in order, each in one of its two states and
    collected exactly when the trace shows the path fetched, and no catalog
    command is run. *)
Definition include_inv (any0 : bool) (seen : list string)
    (st : bool * list Item.t) (new : trace) : Prop :=
  fst st = any0 || negb (forallb Item.collected (snd st))
  /\ map Item.path (snd st) = seen
  /\ Forall item_wf (snd st)
  /\ catalog_runs new = []
  /\ file_outcomes new = map Item.collected (snd st).

(** What is known of a run that reaches the manifest: it is
    [finish_bundle] from a clean trace in which the probe has passed and
    the layout is there, with the flag and the records of the two loops. *)
Definition reaches_finish (E : Env) (a : Args.t) (run : trace * res Z)
    : Prop :=
  exists t2 started bundle_dir any crs irs,
    run = finish_bundle E a started (target_display_of a)
            (expanduser E (Args.out a)) bundle_dir any crs irs t2
    /\ clean t2 /\ host_missing a = false
    /\ probe_passed a t2 /\ layout_created bundle_dir t2
    /\ any = negb (forallb (fun s => (Summary.returncode s =? 0)%Z) crs
                   && forallb Item.collected irs)
    /\ map (fun s => (Summary.name s, Summary.command s)) crs
       = build_commands (Args.service a) (Args.since a)
    /\ map Item.path irs = include_paths (Args.include a)
    /\ Forall item_wf irs
    /\ catalog_runs t2 = recorded_runs a crs
    /\ file_outcomes t2 = map Item.collected irs.

(** What is known of a run that ends before the manifest: a fatal error
    with exit code 2, or an exception without a handler. *)
Definition stops_before_finish (a : Args.t) (run : trace * res Z) : Prop :=
  manifest_writes (fst run) = [] /\ archive_failed (fst run) = false
  /\ archived (fst run) = false
  /\ match snd run with
     | Ret code => code = 2%Z /\ fatal a (fst run) = true
     | Raise e => unhandled (fst run) = Some e
     end.

(** ** Sample worlds *)

(** A world where directories and writes succeed, every process ends as
    [answer] says, from its timeout, and the archive ends as [tar] says. *)
Definition world_of (answer : Z -> proc) (tar : option string) : Env :=
  mk_env (fun _ => "?")
    (fun _ _ timeout => answer timeout)
    (fun _ _ _ => MkdirOk)
    (fun _ _ => None)
    (fun _ _ _ => tar)
    (fun _ => "2026-01-01T00:00:00+00:00")
    (fun _ => "20260101_000000")
    (fun _ => 0%Z)
    (fun p => p)
    "collector".

Definition silent : proc := mk_proc (Completed 0 EmptyString EmptyString) 1.

Definition prints (rc : Z) (out : string) : proc :=
  mk_proc (Completed rc (out ++ NL) EmptyString) 1.

(** Every process times out after printing a part of its output, which
    the exception carries as bytes. *)
Definition world_timeout : Env :=
  world_of
    (fun _ =>
       mk_proc (TimedOut (PyBytes (Py.utf8_encode "partial")) PyNone
                  "timed out") 60000)
    None.

(** The file probe (timeout 20) prints [word]; everything else succeeds
    silently. *)
Definition world_probe (word : string) : Env :=
  world_of (fun timeout => if (timeout =? 20)%Z then prints 0 word else silent)
    None.


(** The connectivity probe (timeout 10) fails. *)
Definition world_unreachable : Env :=
  world_of
    (fun timeout =>
       if (timeout =? 10)%Z
       then mk_proc
              (Completed 255 EmptyString
                 "ssh: connect to host db-1: timed out") 1
       else silent)
    None.

(** Everything succeeds but the archive. *)
Definition world_no_space : Env :=
  world_of (fun _ => silent) (Some "No space left on device").

(** The disk fills up while the archive is packed: the archive fails, and
    so does every write after it. *)
Definition world_full_disk : Env :=
  mk_env (fun _ => "?")
    (fun _ _ _ => silent)
    (fun _ _ _ => MkdirOk)
    (fun t _ => if archive_failed t then Some "No space left on device"
                else None)
    (fun _ _ _ => Some "No space left on device")
    (fun _ => "2026-01-01T00:00:00+00:00")
    (fun _ => "20260101_000000")
    (fun _ => 0%Z)
    (fun p => p)
    "collector".

(** The requested file is readable, but its contents are no text: the
    fetch (timeout 30) ends with output that cannot be decoded. *)
Definition world_binary_file : Env :=
  world_of
    (fun timeout =>
       if (timeout =? 20)%Z then prints 0 "READABLE"
       else if (timeout =? 30)%Z
       then mk_proc
              (Undecodable
                 "'utf-8' codec can't decode byte 0xff in position 0: invalid start byte")
              1
       else silent)
    None.

(** The host answers the connectivity probe (timeout 10) with a banner that
    cannot be decoded. *)
Definition world_binary_banner : Env :=
  world_of
    (fun timeout =>
       if (timeout =? 10)%Z
       then mk_proc
              (Undecodable
                 "'utf-8' codec can't decode byte 0xff in position 0: invalid start byte")
              1
       else silent)
    None.

Definition local_args (port : Z) (include : string) : Args.t :=
  Args.mk Local None None port None EmptyString "2h" "bundles" include.

Definition ssh_args (port : Z) : Args.t :=
  Args.mk Ssh (Some "db-1") None port None "nginx" "2h" "bundles"
    EmptyString.

(** ** More readings: names, permitted events, honest traces *)

(** A text without path separator, without comma, on one line. *)
Definition no_sep (s : string) : bool :=
  Py.all_chars (fun c => negb (Ascii.eqb c "/")) s.

Definition no_comma (s : string) : bool :=
  Py.all_chars (fun c => negb (Ascii.eqb c ",")) s.

Definition one_line (s : string) : bool :=
  Py.all_chars (fun c => negb (Py.is_linebreak c)) s.

Definition starts_with (p : ascii -> bool) (s : string) : bool :=
  match s with
  | String c _ => p c
  | EmptyString => false
  end.

(** A text with no white space at either end. *)
Definition trimmed (s : string) : bool :=
  negb (starts_with_space s) && negb (ends_with_space s).

(** An item of the include list, as [include_paths] returns it. *)
Definition clean_item (x : string) : bool :=
  negb (Py.is_empty x) && no_comma x && trimmed x.

(** The bundle directory of a run whose timestamp is [ts], lines 206 and
    229-232. *)
Definition bundle_dir_of (E : Env) (a : Args.t) (ts : string) : string :=
  path_join (expanduser E (Args.out a))
    ("incident_" ++ sanitize_target (target_display_of a) ++ "_" ++ ts).

(** The processes a run may start: the connectivity probe in ssh mode, a
    catalog command, the probe or the fetch of an include path, each with
    its timeout. *)
Definition permitted_process (a : Args.t) (argv : list string) (timeout : Z)
    : Prop :=
  (Args.mode a = Ssh /\ argv = (build_ssh_base a ++ ["true"])%list
   /\ timeout = 10%Z)
  \/ (exists entry,
        In entry (build_commands (Args.service a) (Args.since a))
        /\ argv = full_cmd_of a (snd entry) /\ timeout = 60%Z)
  \/ (exists p,
        In p (include_paths (Args.include a))
        /\ ((argv = full_cmd_of a (check_cmd_of p) /\ timeout = 20%Z)
            \/ (argv = full_cmd_of a (cat_cmd_of p) /\ timeout = 30%Z))).

(** What a manifest says of the run, whatever its results. *)
Definition manifest_describes (E : Env) (a : Args.t) (m : Manifest.t) : Prop :=
  Manifest.target m = target_display_of a
  /\ Manifest.mode m = mode_text (Args.mode a)
  /\ Manifest.service m
     = (if Py.is_empty (Args.service a) then None else Some (Args.service a))
  /\ Manifest.since m = Args.since a
  /\ Manifest.started_at m = clock_iso E []
  /\ Manifest.collector_host m = gethostname E
  /\ (Manifest.overall_status m = "ok" \/ Manifest.overall_status m = "partial"
      \/ Manifest.overall_status m = "error").

(** The files a run may write in the bundle directory [bd]: the manifest,
    the log of a catalog command, the artifact of an include path. *)
Definition permitted_write (E : Env) (a : Args.t) (bd path : string)
    (c : content) : Prop :=
  (exists m, c = Json m /\ path = path_join bd "manifest.json"
             /\ manifest_describes E a m)
  \/ (exists entry text,
        In entry (build_commands (Args.service a) (Args.since a))
        /\ c = Text text
        /\ path = path_join (path_join bd "commands") (fst entry ++ ".log"))
  \/ (exists p text,
        In p (include_paths (Args.include a))
        /\ c = Text text
        /\ path = path_join (path_join bd "files") (safe_file_name p ++ ".txt")).

(** The events of a run whose bundle directory is [bd]. *)
Definition permitted (E : Env) (a : Args.t) (bd : string) (e : event) : Prop :=
  match e with
  | Print _ => True
  | Spawn argv timeout _ => permitted_process a argv timeout
  | Mkdir path exist_ok _ =>
      (exist_ok = true /\ path = expanduser E (Args.out a))
      \/ (exist_ok = false
          /\ (path = path_join bd "commands" \/ path = path_join bd "files"))
  | WriteText path c _ => permitted_write E a bd path c
  | TarGz archive dir _ =>
      dir = bd
      /\ archive = path_join (expanduser E (Args.out a))
                     (path_name bd ++ ".tar.gz")
  end.

(** The answer of an event is the one the world gives after [older]. *)
Definition answered (E : Env) (older : trace) (e : event) : Prop :=
  match e with
  | Print _ => True
  | Spawn argv timeout p => p = subprocess_run_end E older argv timeout
  | Mkdir path exist_ok r => r = mkdir_end_of E older path exist_ok
  | WriteText path _ err => err = write_error E older path
  | TarGz archive dir err => err = tar_error E older archive dir
  end.

Fixpoint consistent (E : Env) (t : trace) : Prop :=
  match t with
  | [] => True
  | e :: older => answered E older e /\ consistent E older
  end.

(** The events so far are permitted and answered by the world. *)
Definition lawful (E : Env) (a : Args.t) (bd : string) (t : trace) : Prop :=
  Forall (permitted E a bd) t /\ consistent E t.

(** A computation keeps a property of traces; a property allows an event
    after any trace. *)
Definition keeps {A} (Inv : trace -> Prop) (m : M A) : Prop :=
  forall t, Inv t -> Inv (fst (m t)).

Definition allows (Inv : trace -> Prop) (e : trace -> event) : Prop :=
  forall t, Inv t -> Inv (e t :: t).

(** Only prints and the connectivity probe. *)
Definition prerun_event (e : event) : Prop :=
  match e with
  | Print _ => True
  | Spawn _ timeout _ => timeout = 10%Z
  | _ => False
  end.

(** A process started as [bash -lc <command>]. *)
Definition runs_bash (e : event) : Prop :=
  match e with
  | Spawn argv _ _ => exists cmd, argv = ["bash"; "-lc"; cmd]
  | _ => True
  end.

(** * Properties *)

(** ** Facts about the built-ins *)

Lemma prefix_empty (s : string) : prefix EmptyString s = true.
Proof. destruct s; reflexivity. Qed.

Lemma all_chars_impl (p q : ascii -> bool) (s : string) :
  (forall c, p c = true -> q c = true) ->
  Py.all_chars p s = true -> Py.all_chars q s = true.
Proof.
  intros Hpq. induction s as [|c r IH]; simpl; [reflexivity|].
  intros H. apply andb_true_iff in H as [Hc Hr].
  now rewrite (Hpq c Hc), (IH Hr).
Qed.

(** [lstrip] removes a prefix made of stripped characters and stops at the
    first other character. *)
Lemma lstrip_by_split p (s : string) :
  exists lead, s = lead ++ Py.lstrip_by p s
    /\ Py.all_chars p lead = true
    /\ match Py.lstrip_by p s with
       | String c _ => p c = false
       | EmptyString => True
       end.
Proof.
  induction s as [|c s IH]; simpl.
  - exists EmptyString. auto.
  - destruct (p c) eqn:Hc.
    + destruct IH as (lead & Heq & Hall & Hhd).
      exists (String c lead). simpl. rewrite Hc, Hall. split; [congruence|auto].
    + exists EmptyString. simpl. rewrite Hc. auto.
Qed.

(** [rstrip] removes a suffix made of stripped characters, and what is
    left does not end with one. *)
Lemma rstrip_by_split p (s : string) :
  exists trail, s = Py.rstrip_by p s ++ trail
    /\ Py.all_chars p trail = true
    /\ ends_with p (Py.rstrip_by p s) = false.
Proof.
  induction s as [|c s IH].
  - exists EmptyString. auto.
  - destruct IH as (trail & Heq & Hall & Hend). simpl.
    destruct (Py.rstrip_by p s) as [|d r] eqn:Hr.
    + destruct (p c) eqn:Hc.
      * exists (String c s). simpl in *. subst trail. rewrite Hc. auto.
      * exists trail. simpl in *. rewrite Hc. repeat split; auto. congruence.
    + exists trail. repeat split; auto.
      simpl in *. congruence.
Qed.

Lemma rstrip_by_head p c (s : string) :
  p c = false ->
  exists r, Py.rstrip_by p (String c s) = String c r.
Proof.
  intros Hc. simpl. destruct (Py.rstrip_by p s); [rewrite Hc|]; eauto.
Qed.

Lemma lstrip_by_id p (s : string) :
  Py.all_chars (fun c => negb (p c)) s = true -> Py.lstrip_by p s = s.
Proof.
  destruct s as [|c r]; simpl; [reflexivity|].
  intros H. apply andb_true_iff in H as [Hc _].
  apply negb_true_iff in Hc. now rewrite Hc.
Qed.

Lemma rstrip_by_id p (s : string) :
  Py.all_chars (fun c => negb (p c)) s = true -> Py.rstrip_by p s = s.
Proof.
  induction s as [|c r IH]; simpl; [reflexivity|].
  intros H. apply andb_true_iff in H as [Hc Hr].
  apply negb_true_iff in Hc. rewrite (IH Hr), Hc. now destruct r.
Qed.

(** Replacing the one-character separator is a character-wise map. *)
Lemma replace_sep_dunder (s : string) :
  Py.replace "/" "__" s = Spec.seps_to_dunder s.
Proof.
  unfold Py.replace.
  induction s as [|c s IH]; [reflexivity|].
  cbn [Py.replace_from Spec.seps_to_dunder prefix String.length Nat.sub].
  destruct (ascii_dec "/" c) as [<-|Hne].
  - rewrite prefix_empty. simpl. now rewrite IH.
  - destruct (Ascii.eqb_spec c "/") as [->|_]; [congruence|].
    now rewrite IH.
Qed.

Lemma seps_to_dunder_id (s : string) :
  Py.all_chars (fun c => negb (Py.mem "/" c)) s = true ->
  Spec.seps_to_dunder s = s.
Proof.
  induction s as [|c r IH]; simpl; [reflexivity|].
  intros H. apply andb_true_iff in H as [Hc Hr].
  rewrite orb_false_r in Hc. apply negb_true_iff in Hc.
  now rewrite Hc, (IH Hr).
Qed.

Lemma re_sub_runs_id keep repl (s : string) :
  Py.all_chars keep s = true -> Py.re_sub_runs keep repl false s = s.
Proof.
  induction s as [|c r IH]; simpl; [reflexivity|].
  intros H. apply andb_true_iff in H as [Hc Hr]. now rewrite Hc, (IH Hr).
Qed.

Lemma re_sub_runs_class keep (b : bool) (s : string) :
  keep "_"%char = true ->
  Py.all_chars keep (Py.re_sub_runs keep "_" b s) = true.
Proof.
  intros Hu. revert b.
  induction s as [|c r IH]; intros b; simpl; [reflexivity|].
  destruct (keep c) eqn:Hc; simpl.
  - now rewrite Hc, IH.
  - destruct b; simpl; [apply IH|]. now rewrite Hu, IH.
Qed.

(** The substitution with [+], read as a relation: together with the
    output after a run already begun. *)
Lemma re_sub_runs_squeezed (s : string) :
  Squeezed s (Py.re_sub_runs name_char "_" false s)
  /\ exists run rest,
       s = run ++ rest
       /\ Py.all_chars (fun c => negb (name_char c)) run = true
       /\ starts_outside rest = false
       /\ Py.re_sub_runs name_char "_" true s
          = Py.re_sub_runs name_char "_" false rest
       /\ Squeezed rest (Py.re_sub_runs name_char "_" false rest).
Proof.
  induction s as [|c s [IH1 (run & rest & Heq & Hrun & Hhd & Hsub & Hsq)]].
  - split; [constructor|]. exists EmptyString, EmptyString.
    repeat split; constructor.
  - destruct (name_char c) eqn:Hc.
    + assert (Hown : Squeezed (String c s)
                (Py.re_sub_runs name_char "_" false (String c s))).
      { simpl. rewrite Hc. now constructor. }
      split; [exact Hown|].
      exists EmptyString, (String c s). simpl. rewrite Hc.
      repeat split; auto. simpl in Hown. now rewrite Hc in Hown.
    + split.
      * simpl. rewrite Hc, Hsub, Heq.
        apply (Squeezed_run (String c run) rest); auto; [discriminate|].
        simpl. now rewrite Hc.
      * exists (String c run), rest. simpl. rewrite Hc, Hrun.
        repeat split; auto. congruence.
Qed.

Lemma name_char_facts (c : ascii) :
  name_char c = true ->
  Py.isspace c = false /\ Py.mem "/" c = false.
Proof.
  destruct c as [[] [] [] [] [] [] [] []]; vm_compute; intros H;
    first [discriminate H | split; reflexivity].
Qed.

Lemma linebreak_is_space (c : ascii) :
  Py.is_linebreak c = true -> Py.isspace c = true.
Proof.
  destruct c as [[] [] [] [] [] [] [] []]; vm_compute; intros H;
    first [discriminate H | reflexivity].
Qed.

Lemma or_else_nonempty (x d : string) :
  d <> EmptyString -> Py.or_else x d <> EmptyString.
Proof. destruct x; simpl; [auto | discriminate]. Qed.

(** ** The artifact-name sanitizer *)

Example safe_file_name_app_log :
  safe_file_name "/var/log/app.log" = "var__log__app.log".
Proof. reflexivity. Qed.

Example safe_file_name_blank : safe_file_name " / " = "unknown_path".
Proof. reflexivity. Qed.

Example sanitize_target_host :
  sanitize_target "db-1.example.org:22" = "db-1.example.org_22".
Proof. reflexivity. Qed.

(** C7, as worded: the code and the wording of the specification disagree
    on a path with white space around it, on a path with two leading
    separators, and on a run of two characters outside the class.  The code
    trims the white space, strips every leading separator and turns the run
    into one underscore; the wording keeps the white space as underscores,
    strips one separator and replaces each character of the run. *)
Lemma safe_file_name_wording_counterexample :
  (safe_file_name " a.log" = "a.log"
   /\ Spec.safe_file_name " a.log" = "_a.log")
  /\ (safe_file_name "//srv/a.log" = "srv__a.log"
      /\ Spec.safe_file_name "//srv/a.log" = "__srv__a.log")
  /\ (safe_file_name "my  app.log" = "my_app.log"
      /\ Spec.safe_file_name "my  app.log" = "my__app.log")
  /\ safe_file_name "//srv/a.log" <> Spec.safe_file_name "//srv/a.log".
Proof.
  split; [split; reflexivity|]. split; [split; reflexivity|].
  split; [split; reflexivity|]. vm_compute. discriminate.
Qed.

(** C7, amended: for every requested path, [safe_file_name] trims the
    surrounding white space, strips all leading path separators, replaces
    every remaining separator with a double underscore, replaces every
    maximal run of characters outside [A-Za-z0-9_.-] with one underscore,
    and returns the placeholder [unknown_path] when the result is empty. *)
Theorem safe_file_name_steps (src_path : string) :
  exists lead seps core trail out,
    src_path = lead ++ (seps ++ core) ++ trail
    /\ Py.all_chars Py.isspace lead = true
    /\ Py.all_chars Py.isspace trail = true
    /\ starts_with_space (seps ++ core) = false
    /\ ends_with_space (seps ++ core) = false
    /\ Py.all_chars (fun c => Ascii.eqb c "/") seps = true
    /\ Py.starts_with_char "/" core = false
    /\ Squeezed (Spec.seps_to_dunder core) out
    /\ safe_file_name src_path = Py.or_else out "unknown_path".
Proof.
  unfold safe_file_name, Py.strip, Py.strip_by, Py.lstrip_chars,
    Py.re_sub_neg_class_plus.
  destruct (lstrip_by_split Py.isspace src_path) as (lead & Hl & Hlead & Hhd).
  destruct (rstrip_by_split Py.isspace (Py.lstrip_by Py.isspace src_path))
    as (trail & Hr & Htrail & Hend).
  set (mid := Py.rstrip_by Py.isspace (Py.lstrip_by Py.isspace src_path)) in *.
  destruct (lstrip_by_split (Py.mem "/") mid) as (seps & Hs & Hseps & Hcore).
  set (core := Py.lstrip_by (Py.mem "/") mid) in *.
  exists lead, seps, core, trail,
    (Py.re_sub_runs name_char "_" false (Spec.seps_to_dunder core)).
  rewrite replace_sep_dunder.
  rewrite <- Hs.
  repeat split; auto.
  - rewrite <- Hr. exact Hl.
  - destruct (Py.lstrip_by Py.isspace src_path) as [|c r] eqn:Hls;
      [subst mid; reflexivity|].
    destruct (rstrip_by_head Py.isspace c r Hhd) as (r' & Hr').
    subst mid. rewrite Hr'. exact Hhd.
  - clear -Hseps. induction seps as [|c r IH]; simpl in *; auto.
    rewrite orb_false_r in Hseps. apply andb_true_iff in Hseps as [Hc Hr].
    rewrite Hc. auto.
  - destruct core as [|c r]; [reflexivity|]. simpl in *.
    rewrite orb_false_r in Hcore. exact Hcore.
  - apply re_sub_runs_squeezed.
Qed.

Lemma safe_file_name_class (s : string) :
  Py.all_chars name_char (safe_file_name s) = true.
Proof.
  unfold safe_file_name, Py.re_sub_neg_class_plus.
  match goal with |- context [Py.or_else ?x _] =>
    assert (H : Py.all_chars name_char x = true)
      by (apply re_sub_runs_class; reflexivity);
    destruct x end; [reflexivity | exact H].
Qed.

Lemma safe_file_name_nonempty (s : string) : safe_file_name s <> EmptyString.
Proof.
  unfold safe_file_name.
  match goal with |- context [Py.or_else ?x _] => destruct x end;
    discriminate.
Qed.

(** A non-empty name made of characters of the class is left as it is. *)
Lemma safe_file_name_fixed (s : string) :
  Py.all_chars name_char s = true -> s <> EmptyString ->
  safe_file_name s = s.
Proof.
  intros Hs Hne.
  assert (Hsp : Py.all_chars (fun c => negb (Py.isspace c)) s = true).
  { apply (all_chars_impl name_char); [|exact Hs].
    intros c Hc. apply negb_true_iff. apply name_char_facts, Hc. }
  assert (Hsl : Py.all_chars (fun c => negb (Py.mem "/" c)) s = true).
  { apply (all_chars_impl name_char); [|exact Hs].
    intros c Hc. apply negb_true_iff. apply name_char_facts, Hc. }
  unfold safe_file_name, Py.strip, Py.strip_by, Py.lstrip_chars,
    Py.re_sub_neg_class_plus.
  rewrite (lstrip_by_id Py.isspace s Hsp), (rstrip_by_id Py.isspace s Hsp).
  rewrite (lstrip_by_id (Py.mem "/") s Hsl).
  rewrite replace_sep_dunder, (seps_to_dunder_id s Hsl).
  rewrite (re_sub_runs_id name_char "_" s Hs).
  destruct s; [congruence|reflexivity].
Qed.

(** C8: [safe_file_name] is idempotent, its output contains no path
    separator and is never empty, and [/var/log/app.log] and
    [/etc/app.log] get different names. *)
Theorem safe_file_name_idempotent :
  (forall s, safe_file_name (safe_file_name s) = safe_file_name s)
  /\ (forall s, Py.all_chars (fun c => negb (Ascii.eqb c "/"))
                  (safe_file_name s) = true)
  /\ (forall s, safe_file_name s <> EmptyString)
  /\ safe_file_name "/var/log/app.log" <> safe_file_name "/etc/app.log".
Proof.
  repeat split.
  - intros s. apply safe_file_name_fixed;
      [apply safe_file_name_class | apply safe_file_name_nonempty].
  - intros s. apply (all_chars_impl name_char);
      [|apply safe_file_name_class].
    intros c Hc. destruct (name_char_facts c Hc) as [_ H].
    simpl in H. rewrite orb_false_r in H. now rewrite H.
  - apply safe_file_name_nonempty.
  - vm_compute. discriminate.
Qed.

(** ** The command catalog *)

(** C5: the catalog is a function of (service, since) alone, so equal
    inputs give the same ordered list; its first nine entries are the
    unconditional ones, in a fixed order and whatever the service, and a
    non-empty service name appends exactly the three service entries
    journal, status, show after them. *)
Theorem build_commands_catalog (service since : string) :
  (forall service' since',
     service' = service -> since' = since ->
     build_commands service' since' = build_commands service since)
  /\ map fst (build_commands EmptyString since)
     = ["hostnamectl"; "date_iso"; "uptime"; "journal_errors"; "dmesg_tail";
        "ss_tulpen"; "df_h"; "df_i"; "free_m"]
  /\ length (build_commands EmptyString since) = 9%nat
  /\ exists extra,
       build_commands service since
       = (build_commands EmptyString since ++ extra)%list
       /\ map fst extra
          = (if Py.is_empty service then []
             else ["journal_service"; "systemctl_status"; "systemctl_show"])
       /\ length extra = (if Py.is_empty service then 0 else 3)%nat.
Proof.
  split; [now intros ? ? -> ->|].
  split; [reflexivity|]. split; [reflexivity|].
  unfold build_commands. destruct service as [|c r]; cbn [Py.is_empty negb].
  - exists []. now rewrite app_nil_r.
  - eexists. split; [reflexivity|]. split; reflexivity.
Qed.

(** ** Quoted tokens, as the shell reads them *)












Example lex_cat_with_quote :
  Sh.lex (cat_cmd_of "/tmp/it's; rm -rf x")
  = Some [Sh.W "cat"; Sh.Word (inside_quotes "/tmp/it's; rm -rf x")].
Proof. reflexivity. Qed.


(** ** The state word of a probe *)

Lemma strip_head (s : string) :
  match Py.strip s with
  | String c _ => Py.isspace c = false
  | EmptyString => True
  end.
Proof.
  unfold Py.strip, Py.strip_by.
  destruct (lstrip_by_split Py.isspace s) as (_ & _ & _ & Hhd).
  destruct (Py.lstrip_by Py.isspace s) as [|c r]; [exact I|].
  destruct (rstrip_by_head Py.isspace c r Hhd) as (r' & ->). exact Hhd.
Qed.

Lemma splitlines_head (c : ascii) (r : string) :
  Py.isspace c = false ->
  exists l ls, Py.splitlines (String c r) = String c l :: ls.
Proof.
  intros Hc. simpl.
  destruct (Py.is_linebreak c) eqn:Hb.
  - apply linebreak_is_space in Hb. congruence.
  - destruct (Py.splitlines r); eauto.
Qed.

(** The index [0] never fails, and the state word is never empty. *)
Lemma probe_state_returns (check_res : Cmd.t) (t : trace) :
  exists c l, probe_state check_res t = (t, Ret (String c l)).
Proof.
  unfold probe_state.
  pose proof (strip_head (Cmd.stdout check_res)) as Hhd.
  destruct (Py.strip (Cmd.stdout check_res)) as [|c r].
  - exists "U"%char, "NKNOWN". reflexivity.
  - destruct (splitlines_head c r Hhd) as (l & ls & Hsp).
    exists c, l. unfold Py.or_else. now rewrite Hsp.
Qed.

(** ** Rules for loop computations *)

Lemma bind_ret_eq {A B} (m : M A) (k : A -> M B) t t' a :
  m t = (t', Ret a) -> bind m k t = k a t'.
Proof. intros H. unfold bind. now rewrite H. Qed.

Lemma bind_raise_eq {A B} (m : M A) (k : A -> M B) t t' e :
  m t = (t', Raise e) -> bind m k t = (t', Raise e).
Proof. intros H. unfold bind. now rewrite H. Qed.

Lemma catalog_runs_app (new older : trace) :
  catalog_runs (new ++ older)%list
  = (catalog_runs older ++ catalog_runs new)%list.
Proof.
  induction new as [|e new IH]; simpl; [now rewrite app_nil_r|].
  destruct e as [|argv timeout p| | |]; try exact IH.
  destruct (exit_code_of p); [|exact IH].
  destruct (timeout =? 60)%Z; [|exact IH].
  now rewrite IH, app_assoc.
Qed.

Lemma spec_ret {A} (a : A) (P : A -> trace -> Prop) :
  P a [] -> loop_spec (ret a) P.
Proof. intros H t. exists []. auto. Qed.

Lemma spec_bind {A B} (m : M A) (k : A -> M B) (P : A -> trace -> Prop)
    (Q : B -> trace -> Prop) :
  loop_spec m P ->
  (forall a new, P a new ->
     loop_spec (k a) (fun b new' => Q b (new' ++ new)%list)) ->
  loop_spec (bind m k) Q.
Proof.
  intros Hm Hk t. unfold bind.
  destruct (Hm t) as (new & Hfst & Hq & Hres).
  destruct (m t) as [t1 [a|e]]; simpl in *; subst t1.
  - destruct (Hk a new Hres (new ++ t)%list) as (new' & Hfst' & Hq' & Hres').
    exists (new' ++ new)%list. rewrite Hfst', app_assoc, forallb_app, Hq, Hq'.
    repeat split. destruct (snd (k a (new ++ t)%list)); [exact Hres'|].
    now rewrite <- app_assoc.
  - exists new. auto.
Qed.

Lemma spec_for_each {A S} (body : S -> A -> M S)
    (I : list A -> S -> trace -> Prop) (xs : list A) :
  (forall seen x s new, I seen s new ->
     loop_spec (body s x)
       (fun s' new' => I (seen ++ [x])%list s' (new' ++ new)%list)) ->
  forall seen s new, I seen s new ->
    loop_spec (for_each body xs s)
      (fun s' new' => I (seen ++ xs)%list s' (new' ++ new)%list).
Proof.
  intros Hbody. induction xs as [|x rest IH]; intros seen s new Hs.
  - rewrite app_nil_r. now apply spec_ret.
  - simpl. eapply spec_bind; [apply (Hbody seen x s new Hs)|].
    intros s' new1 Hs'. specialize (IH _ _ _ Hs').
    intros t. destruct (IH t) as (new2 & Hfst & Hq & Hres).
    exists new2. repeat split; auto.
    destruct (snd (for_each body rest s' t)); [|exact Hres].
    now rewrite <- !app_assoc in *.
Qed.

Section Rules.

Variable E : Env.

Lemma spec_run_target (a : Args.t) (command : string) (timeout : Z) :
  timeout <> 10%Z ->
  loop_spec (run_target E a command timeout)
    (fun r new =>
       exists p, new = [Spawn (full_cmd_of a command) timeout p]
                 /\ exit_code_of p = Some (Cmd.returncode r)).
Proof.
  intros Ht t. unfold run_target, bind, subprocess_run.
  set (p := subprocess_run_end E t (full_cmd_of a command) timeout).
  exists [Spawn (full_cmd_of a command) timeout p].
  assert (Hq : (timeout =? 10)%Z = false) by now apply Z.eqb_neq.
  unfold exit_code_of.
  destruct p as [[rc out err|out err text|text|text] ms] eqn:Hp; simpl;
    rewrite Hq; repeat split; eauto.
Qed.

Lemma spec_write_text (path text : string) :
  loop_spec (write_text E path (Text text))
    (fun _ new => new = [WriteText path (Text text) None]).
Proof.
  intros t. unfold write_text.
  exists [WriteText path (Text text) (write_error E t path)].
  destruct (write_error E t path); simpl; auto.
Qed.

Lemma spec_probe_state (check_res : Cmd.t) :
  loop_spec (probe_state check_res)
    (fun state new => new = [] /\ state <> EmptyString).
Proof.
  intros t. destruct (probe_state_returns check_res t) as (c & l & ->).
  exists []. simpl. repeat split. discriminate.
Qed.

(** A process run with another timeout than 60 seconds is no catalog
    command. *)
Lemma catalog_runs_other argv timeout p (t : trace) :
  timeout <> 60%Z -> catalog_runs (Spawn argv timeout p :: t) = catalog_runs t.
Proof.
  intros Ht. simpl. apply Z.eqb_neq in Ht. rewrite Ht.
  now destruct (exit_code_of p).
Qed.

Lemma spec_run_catalog_entry (a : Args.t) (commands_dir : string)
    seen entry st new :
  catalog_inv a seen st new ->
  loop_spec (run_catalog_entry E a commands_dir st entry)
    (fun st' new' => catalog_inv a (seen ++ [entry])%list st' (new' ++ new)%list).
Proof.
  destruct st as [any results], entry as [name cmd].
  intros (Hany & Hseen & Hruns & Hfiles). simpl in Hany, Hseen, Hruns.
  unfold run_catalog_entry.
  eapply spec_bind; [apply spec_run_target; discriminate|].
  intros result new1 (p & -> & Hcode).
  eapply spec_bind; [apply spec_write_text|]. intros u new2 ->.
  apply spec_ret. split; [|split; [|split]]; simpl.
  - rewrite forallb_app. simpl. unfold Cmd.ok. simpl.
    destruct (Cmd.returncode result =? 0)%Z; simpl.
    + now rewrite !andb_true_r.
    + now rewrite andb_false_r.
  - rewrite map_app. simpl. now rewrite Hseen.
  - rewrite Hcode, Hruns. unfold recorded_runs. rewrite map_app. reflexivity.
  - intros fetched. apply Hfiles.
Qed.

(** One more path: the events [iter] of its iteration run no catalog
    command and show the path fetched exactly when its record says
    collected. *)
Lemma include_inv_next any0 seen any items file_path (collected : bool) why
    (iter new : trace) :
  include_inv any0 seen (any, items) new ->
  item_wf (Item.mk file_path collected why) ->
  catalog_runs (iter ++ new)%list = catalog_runs new ->
  file_outcomes (iter ++ new)%list = (file_outcomes new ++ [collected])%list ->
  include_inv any0 (seen ++ [file_path])%list
    (if collected then any else true,
     (items ++ [Item.mk file_path collected why])%list)
    (iter ++ new)%list.
Proof.
  intros (Hany & Hseen & Hwf & Hruns & Hfiles) Hitem Hcat Hout. simpl in *.
  split; [|split; [|split; [|split]]]; simpl.
  - rewrite forallb_app. simpl. rewrite andb_true_r.
    destruct collected; [now rewrite andb_true_r|].
    rewrite andb_false_r. simpl. now rewrite orb_true_r.
  - rewrite map_app. simpl. now rewrite Hseen.
  - apply Forall_app. split; [exact Hwf|]. constructor; [exact Hitem|constructor].
  - now rewrite Hcat.
  - rewrite Hout, Hfiles, map_app. reflexivity.
Qed.

Lemma item_wf_failed file_path why :
  why <> EmptyString -> item_wf (Item.mk file_path false why).
Proof. intros H. right. auto. Qed.

Lemma spec_collect_include (a : Args.t) (files_dir : string)
    any0 seen file_path st new :
  include_inv any0 seen st new ->
  loop_spec (collect_include E a files_dir st file_path)
    (fun st' new' =>
       include_inv any0 (seen ++ [file_path])%list st' (new' ++ new)%list).
Proof.
  destruct st as [any items]. intros Hinv. unfold collect_include.
  eapply spec_bind; [apply spec_run_target; discriminate|].
  intros check_res new1 (p1 & -> & _).
  eapply spec_bind; [apply spec_probe_state|]. intros state new2 [-> Hstate].
  set (probe := Spawn (full_cmd_of a (check_cmd_of file_path)) 20 p1).
  assert (Hprobe : forall why,
            why <> EmptyString ->
            include_inv any0 (seen ++ [file_path])%list
              (true, (items ++ [Item.mk file_path false why])%list)
              (probe :: new)).
  { intros why Hwhy.
    apply (include_inv_next any0 seen any items file_path false why [probe] new
             Hinv (item_wf_failed _ _ Hwhy));
      [apply catalog_runs_other; discriminate | reflexivity]. }
  destruct (negb (Cmd.returncode check_res =? 0)%Z || (state =? "UNKNOWN")).
  { apply spec_ret. apply Hprobe, or_else_nonempty. discriminate. }
  destruct (negb (state =? "READABLE")).
  { apply spec_ret. apply Hprobe.
    destruct state; [congruence | discriminate]. }
  eapply spec_bind; [apply spec_run_target; discriminate|].
  intros cat_res new3 (p3 & -> & Hcode).
  set (fetch := Spawn (full_cmd_of a (cat_cmd_of file_path)) 30 p3).
  assert (Hcat : forall iter,
            catalog_runs (iter ++ fetch :: probe :: new)%list
            = catalog_runs (iter ++ new)%list).
  { intros iter. rewrite !catalog_runs_app. f_equal. subst fetch probe.
    rewrite !catalog_runs_other; [reflexivity | discriminate ..]. }
  destruct (Cmd.returncode cat_res =? 0)%Z eqn:Hrc; cbn [negb].
  2:{ apply spec_ret.
      apply (include_inv_next any0 seen any items file_path false _
               [fetch; probe] new Hinv).
      - apply item_wf_failed, or_else_nonempty. discriminate.
      - apply (Hcat []).
      - unfold file_outcomes. simpl. unfold exits_with_0.
        now rewrite Hcode, Hrc. }
  eapply spec_bind; [apply spec_write_text|]. intros u new4 ->.
  apply spec_ret.
  apply (include_inv_next any0 seen any items file_path true EmptyString
           [WriteText (path_join files_dir (safe_file_name file_path ++ ".txt"))
              (Text (Cmd.stdout cat_res)) None; fetch; probe] new Hinv).
  - left. auto.
  - apply (Hcat [WriteText _ _ _]).
  - unfold file_outcomes. simpl. unfold exits_with_0.
    now rewrite Hcode, Hrc.
Qed.

End Rules.

(** ** Traces of a whole run *)

Lemma existsb_quiet (f : event -> bool) (new t : trace) :
  (forall e, quiet_event e = true -> f e = false) ->
  forallb quiet_event new = true ->
  existsb f (new ++ t)%list = existsb f t.
Proof.
  intros Hf. induction new as [|e new IH]; simpl; [reflexivity|].
  intros H. apply andb_true_iff in H as [He Hn]. now rewrite (Hf e He), IH.
Qed.

Lemma manifest_writes_quiet (new t : trace) :
  forallb quiet_event new = true ->
  manifest_writes (new ++ t)%list = manifest_writes t.
Proof.
  induction new as [|e new IH]; simpl; [reflexivity|].
  intros H. apply andb_true_iff in H as [He Hn].
  destruct e as [| | |path [text|m] err|]; simpl in *;
    first [discriminate He | now apply IH].
Qed.

(** Quiet events leave a clean trace clean. *)
Lemma clean_app (new t : trace) :
  clean t -> forallb quiet_event new = true -> clean (new ++ t)%list.
Proof.
  intros (Hm & Ha & Hl & Hp & Har) Hq. unfold clean.
  rewrite (manifest_writes_quiet _ _ Hq).
  unfold archive_failed, layout_failed, probe_failed, archived.
  rewrite !existsb_quiet; auto.
  - intros [| | |path [text|m] err| archive dir []]; simpl; intros H;
      first [discriminate H | reflexivity].
  - intros [| argv timeout p | | |]; simpl; try reflexivity.
    intros H. apply negb_true_iff in H. now rewrite H.
  - intros [| | path [] [] | |]; simpl; intros H;
      first [discriminate H | reflexivity].
  - intros [| | |path [text|m] err| archive dir []]; simpl; intros H;
      first [discriminate H | reflexivity].
Qed.

(** Older events without a file probe or fetch do not change the outcomes
    the newer ones show. *)
Lemma file_outcomes_app (fetched : bool) (new older : trace) :
  (forall f, file_outcomes_from f older = []) ->
  file_outcomes_from fetched (new ++ older)%list
  = file_outcomes_from fetched new.
Proof.
  intros Hold. revert fetched.
  induction new as [|e new IH]; intros fetched; simpl; [apply Hold|].
  destruct e as [|argv timeout p| | |]; auto.
  destruct (timeout =? 20)%Z; [now rewrite IH|].
  destruct (timeout =? 30)%Z; auto.
Qed.

Lemma probe_passed_app (a : Args.t) (new t : trace) :
  probe_passed a t -> probe_passed a (new ++ t)%list.
Proof.
  unfold probe_passed. destruct (Args.mode a); [auto|].
  intros (p & Hin & Hcode). exists p. split; [|exact Hcode].
  apply in_or_app. now right.
Qed.

Lemma layout_created_app (bd : string) (new t : trace) :
  layout_created bd t -> layout_created bd (new ++ t)%list.
Proof. intros [Hc Hf]. split; apply in_or_app; now right. Qed.

Section Runs.

Variable E : Env.

(** The two loops and what follows, from a fresh trace. *)
Lemma loops_then_finish (a : Args.t) started bundle_dir
    commands_dir files_dir (t1 : trace) :
  fresh t1 -> host_missing a = false ->
  probe_passed a t1 -> layout_created bundle_dir t1 ->
  let run :=
    (st1 <- for_each (run_catalog_entry E a commands_dir)
              (build_commands (Args.service a) (Args.since a)) (false, []) ;;
     let '(any_failures, command_results) := st1 in
     st2 <- for_each (collect_include E a files_dir)
              (include_paths (Args.include a)) (any_failures, []) ;;
     let '(any_failures, include_results) := st2 in
     finish_bundle E a started (target_display_of a)
       (expanduser E (Args.out a)) bundle_dir
       any_failures command_results include_results) t1 in
  stops_before_finish a run \/ reaches_finish E a run.
Proof.
  intros (Hclean & Hnone & Hnofile) Hhost Hpassed Hlayout. cbv zeta.
  destruct (spec_for_each (run_catalog_entry E a commands_dir)
              (catalog_inv a)
              (build_commands (Args.service a) (Args.since a))
              (fun seen x s new =>
                 spec_run_catalog_entry E a commands_dir seen x s new)
              [] (false, []) []
              (conj eq_refl (conj eq_refl (conj eq_refl (fun _ => eq_refl))))
              t1)
    as (new1 & Hfst1 & Hq1 & Hres1).
  destruct (for_each (run_catalog_entry E a commands_dir) _ _ t1)
    as [t1' [[any1 crs]|e]] eqn:Hloop1; simpl in Hfst1, Hres1; subst t1'.
  2:{ left. rewrite (bind_raise_eq _ _ _ _ _ Hloop1).
      destruct (clean_app _ _ Hclean Hq1) as (Hm & Ha & _ & _ & Har).
      repeat split; auto. }
  rewrite (bind_ret_eq _ _ _ _ _ Hloop1).
  destruct Hres1 as (Hany1 & Hseen1 & Hruns1 & Hfiles1).
  simpl in Hany1, Hseen1, Hruns1. rewrite app_nil_r in Hruns1, Hfiles1.
  pose proof (clean_app _ _ Hclean Hq1) as Hclean1.
  destruct (spec_for_each (collect_include E a files_dir) (include_inv any1)
              (include_paths (Args.include a))
              (fun seen x s new =>
                 spec_collect_include E a files_dir any1 seen x s new)
              [] (any1, []) []) with (t := (new1 ++ t1)%list)
    as (new2 & Hfst2 & Hq2 & Hres2).
  { repeat split; simpl; [now rewrite orb_false_r | constructor]. }
  destruct (for_each (collect_include E a files_dir) _ _ (new1 ++ t1)%list)
    as [t2 [[any2 irs]|e]] eqn:Hloop2; simpl in Hfst2, Hres2; subst t2.
  2:{ left. rewrite (bind_raise_eq _ _ _ _ _ Hloop2).
      destruct (clean_app _ _ Hclean1 Hq2) as (Hm & Ha & _ & _ & Har).
      repeat split; auto. }
  rewrite (bind_ret_eq _ _ _ _ _ Hloop2).
  destruct Hres2 as (Hany2 & Hseen2 & Hwf & Hruns2 & Hfiles2).
  simpl in Hany2, Hseen2, Hwf, Hruns2, Hfiles2.
  rewrite app_nil_r in Hruns2, Hfiles2.
  right.
  exists (new2 ++ new1 ++ t1)%list, started, bundle_dir, any2, crs, irs.
  split; [reflexivity|]. split; [now apply clean_app|].
  split; [exact Hhost|].
  split; [now apply probe_passed_app, probe_passed_app|].
  split; [now apply layout_created_app, layout_created_app|].
  repeat split; auto.
  - rewrite Hany2, Hany1. now rewrite negb_andb.
  - now rewrite !catalog_runs_app, Hnone, Hruns1, Hruns2, app_nil_r.
  - unfold file_outcomes. rewrite file_outcomes_app; [exact Hfiles2|].
    intros f. rewrite file_outcomes_app; [apply Hfiles1 | exact Hnofile].
Qed.

(** The bundle layout: both directories, or an error that the caller
    handles. *)
Lemma layout_attempt (out_dir target : string) (t : trace) :
  fresh t ->
  (exists b,
      attempt (make_bundle_layout E out_dir target) t
      = (Mkdir (path_join b "files") false MkdirOk
           :: Mkdir (path_join b "commands") false MkdirOk :: t,
         Ret (Ret (b, path_join b "commands", path_join b "files")))
      /\ fresh (Mkdir (path_join b "files") false MkdirOk
                  :: Mkdir (path_join b "commands") false MkdirOk :: t))
  \/ (exists t' e,
        attempt (make_bundle_layout E out_dir target) t = (t', Ret (Raise e))
        /\ manifest_writes t' = [] /\ archive_failed t' = false
        /\ archived t' = false
        /\ layout_failed t' = true
        /\ match e with
           | OSError _ | FileExistsError _ => True
           | _ => False
           end).
Proof.
  intros ((Hm & Ha & Hl & Hp & Har) & Hnone & Hnofile).
  unfold attempt, make_bundle_layout, bind, timestamp_slug, mkdir, ret.
  set (dir := path_join out_dir _).
  destruct (mkdir_end_of E t (path_join dir "commands") false) eqn:Hc.
  2,3: right; eexists _, _; (split; [reflexivity|]);
       unfold archive_failed, layout_failed, archived in *; simpl; auto 10.
  destruct (mkdir_end_of E _ (path_join dir "files") false) eqn:Hf.
  2,3: right; eexists _, _; (split; [reflexivity|]);
       unfold archive_failed, layout_failed, archived in *; simpl; auto 10.
  left. exists dir. split; [reflexivity|].
  unfold fresh, clean, archive_failed, layout_failed, probe_failed,
    archived in *.
  simpl. auto 10.
Qed.

(** The connectivity probe, from the empty trace: the script goes on, stops
    with a failed check, or the probe's output cannot be decoded. *)
Lemma probe_attempt (a : Args.t) :
  exists t1,
    manifest_writes t1 = [] /\ archive_failed t1 = false
    /\ archived t1 = false
    /\ layout_failed t1 = false /\ catalog_runs t1 = []
    /\ (forall f, file_outcomes_from f t1 = [])
    /\ ((exists ok msg,
           match Args.mode a with
           | Local => ret (true, EmptyString)
           | Ssh => check_ssh_connectivity E a
           end [] = (t1, Ret (ok, msg))
           /\ probe_failed t1 = negb ok
           /\ (ok = true -> probe_passed a t1))
        \/ (exists e,
              match Args.mode a with
              | Local => ret (true, EmptyString)
              | Ssh => check_ssh_connectivity E a
              end [] = (t1, Raise e)
              /\ unhandled t1 = Some e)).
Proof.
  unfold probe_passed. destruct (Args.mode a).
  { exists []. repeat split; auto. left. exists true, EmptyString. auto. }
  unfold check_ssh_connectivity, bind, subprocess_run.
  set (argv := (build_ssh_base a ++ ["true"])%list).
  exists [Spawn argv 10 (subprocess_run_end E [] argv 10)].
  repeat split; try reflexivity.
  { unfold catalog_runs. now destruct (exit_code_of _). }
  unfold probe_failed, exit_code_of. simpl.
  destruct (subprocess_run_end E [] argv 10)
    as [[rc out err|o e text|text|text] ms] eqn:Hp;
    unfold failed_check; cbn [proc_end_of].
  - left. destruct (rc =? 0)%Z eqn:Hrc; cbn [negb]; unfold ret;
      eexists _, _; (split; [reflexivity|]); split; try reflexivity.
    + intros _. eexists. split; [left; reflexivity|].
      apply Z.eqb_eq in Hrc. now subst rc.
    + discriminate.
  - left. unfold ret. eexists _, _. split; [reflexivity|].
    split; [reflexivity | discriminate].
  - left. unfold ret. eexists _, _. split; [reflexivity|].
    split; [reflexivity | discriminate].
  - right. eexists. split; reflexivity.
Qed.

(** Every run from the empty trace stops before the manifest, at a fatal
    error or an exception without a handler, or reaches [finish_bundle]. *)
Lemma collect_bundle_run (a : Args.t) :
  stops_before_finish a (collect_bundle E a [])
  \/ reaches_finish E a (collect_bundle E a []).
Proof.
  unfold collect_bundle.
  rewrite (bind_ret_eq (now_iso E) _ [] [] (clock_iso E []) eq_refl).
  fold (host_missing a).
  destruct (host_missing a) eqn:Hhost.
  { left. unfold stops_before_finish, fatal. rewrite Hhost. simpl. auto. }
  destruct (probe_attempt a)
    as (t1 & Hm1 & Ha1 & Har1 & Hl1 & Hn1 & Hf1
        & [(ok & msg & Hrun1 & Hp1 & Hpass)|(e & Hrun1 & He)]).
  2:{ left. rewrite (bind_raise_eq _ _ _ _ _ Hrun1).
      unfold stops_before_finish. simpl. auto. }
  rewrite (bind_ret_eq _ _ _ _ _ Hrun1).
  destruct ok; cbn [negb].
  2:{ left. unfold stops_before_finish, fatal, bind, print, ret. simpl.
      repeat split; auto.
      unfold probe_failed in *. simpl. simpl in Hp1. rewrite Hp1.
      now rewrite orb_true_r. }
  specialize (Hpass eq_refl).
  destruct (mkdir E (expanduser E (Args.out a)) true t1)
    as [t1a r1a] eqn:Hout.
  unfold mkdir in Hout.
  destruct (mkdir_end_of E t1 (expanduser E (Args.out a)) true) eqn:Ho;
    injection Hout as <- <-.
  2,3: left; erewrite bind_raise_eq by (unfold mkdir; rewrite Ho; reflexivity);
       unfold stops_before_finish; simpl; repeat split; auto.
  erewrite bind_ret_eq by (unfold mkdir; rewrite Ho; reflexivity).
  set (t1b := Mkdir (expanduser E (Args.out a)) true MkdirOk :: t1).
  assert (Hb : fresh t1b).
  { unfold fresh, clean, archive_failed, layout_failed, probe_failed,
      archived in *.
    simpl. auto 10. }
  assert (Hpb : probe_passed a t1b).
  { apply (probe_passed_app a [_] t1 Hpass). }
  clearbody t1b.
  cbv zeta.
  destruct (layout_attempt (expanduser E (Args.out a))
              (sanitize_target
                 match Args.mode a with
                 | Local => "local"
                 | Ssh => if Py.truthy (Args.host a)
                          then Py.format_opt (Args.host a) else "unknown"
                 end) t1b Hb)
    as [(b & Hrun & Hfresh)|(t1c & e & Hrun & Hm & Ha & Har & Hl & He)];
    rewrite (bind_ret_eq _ _ _ _ _ Hrun).
  - apply (loops_then_finish a (clock_iso E []) b); auto.
    + apply (probe_passed_app a [_; _] t1b Hpb).
    + split; simpl; auto.
  - left. destruct e; try contradiction;
      unfold stops_before_finish, fatal, bind, print, ret; simpl;
      rewrite Hl; repeat split; auto; now rewrite !orb_true_r.
Qed.

End Runs.

(** ** Rules for properties of traces *)


Lemma keeps_ret {A} Inv (a : A) : keeps Inv (ret a).
Proof. intros t H. exact H. Qed.

Lemma keeps_raise {A} Inv e : keeps Inv (@raise A e).
Proof. intros t H. exact H. Qed.

Lemma keeps_bind {A B} Inv (m : M A) (k : A -> M B) :
  keeps Inv m -> (forall x, keeps Inv (k x)) -> keeps Inv (bind m k).
Proof.
  intros Hm Hk t Ht. unfold bind. specialize (Hm t Ht).
  destruct (m t) as [t1 [x|e]]; simpl in *; [now apply Hk | exact Hm].
Qed.

Lemma keeps_attempt {A} Inv (m : M A) : keeps Inv m -> keeps Inv (attempt m).
Proof.
  intros Hm t Ht. unfold attempt. specialize (Hm t Ht).
  now destruct (m t).
Qed.

Lemma keeps_for_each {A S} Inv (body : S -> A -> M S) (xs : list A) :
  (forall s x, In x xs -> keeps Inv (body s x)) ->
  forall s, keeps Inv (for_each body xs s).
Proof.
  induction xs as [|x rest IH]; intros Hbody s; simpl.
  - apply keeps_ret.
  - apply keeps_bind; [apply Hbody; now left|].
    intros s'. apply IH. intros s0 y Hy. apply Hbody. now right.
Qed.

Section Keeps.

Variable E : Env.
Variable Inv : trace -> Prop.

Lemma keeps_print line :
  allows Inv (fun _ => Print line) -> keeps Inv (print line).
Proof. intros H t Ht. now apply H. Qed.

Lemma keeps_subprocess_run argv timeout :
  allows Inv (fun t => Spawn argv timeout (subprocess_run_end E t argv timeout)) ->
  keeps Inv (subprocess_run E argv timeout).
Proof. intros H t Ht. now apply H. Qed.

Lemma keeps_mkdir path exist_ok :
  allows Inv (fun t => Mkdir path exist_ok (mkdir_end_of E t path exist_ok)) ->
  keeps Inv (mkdir E path exist_ok).
Proof. intros H t Ht. now apply H. Qed.

Lemma keeps_write_text path c :
  allows Inv (fun t => WriteText path c (write_error E t path)) ->
  keeps Inv (write_text E path c).
Proof. intros H t Ht. now apply H. Qed.

Lemma keeps_tar_gz archive dir :
  allows Inv (fun t => TarGz archive dir (tar_error E t archive dir)) ->
  keeps Inv (tar_gz E archive dir).
Proof. intros H t Ht. now apply H. Qed.

Lemma keeps_clock {A} (f : trace -> A) : keeps Inv (fun t => (t, Ret (f t))).
Proof. intros t Ht. exact Ht. Qed.

Lemma keeps_run_target a command timeout :
  allows Inv (fun t => Spawn (full_cmd_of a command) timeout
                       (subprocess_run_end E t (full_cmd_of a command) timeout)) ->
  keeps Inv (run_target E a command timeout).
Proof.
  intros H. unfold run_target. apply keeps_bind.
  - now apply keeps_subprocess_run.
  - intros p. destruct (proc_end_of p);
      [apply keeps_ret | apply keeps_ret | apply keeps_raise ..].
Qed.

Lemma keeps_probe_state check_res : keeps Inv (probe_state check_res).
Proof.
  unfold probe_state, first_item.
  destruct (Py.splitlines _); [apply keeps_raise | apply keeps_ret].
Qed.

End Keeps.


(** ** Every event of a run is permitted *)


Section Lawful.

Variable E : Env.
Variable a : Args.t.
Variable bd : string.

Lemma allows_lawful (e : trace -> event) :
  (forall t, permitted E a bd (e t)) -> (forall t, answered E t (e t)) ->
  allows (lawful E a bd) e.
Proof.
  intros Hp Ha t [Hall Hc]. split; [constructor; auto | simpl; auto].
Qed.

Ltac allow_event :=
  apply allows_lawful; [intros ?; simpl | intros ?; simpl; auto].

Lemma lawful_run_catalog_entry st entry :
  In entry (build_commands (Args.service a) (Args.since a)) ->
  keeps (lawful E a bd)
    (run_catalog_entry E a (path_join bd "commands") st entry).
Proof.
  intros Hin. destruct st as [any crs], entry as [name cmd].
  unfold run_catalog_entry.
  apply keeps_bind.
  - apply keeps_run_target. allow_event.
    right; left. exists (name, cmd). auto.
  - intros result. apply keeps_bind; [|intros _; apply keeps_ret].
    unfold write_command_log. apply keeps_write_text. allow_event.
    right; left. exists (name, cmd). eexists. eauto.
Qed.

Lemma lawful_collect_include st file_path :
  In file_path (include_paths (Args.include a)) ->
  keeps (lawful E a bd)
    (collect_include E a (path_join bd "files") st file_path).
Proof.
  intros Hin. destruct st as [any items]. unfold collect_include.
  apply keeps_bind.
  { apply keeps_run_target. allow_event.
    right; right. exists file_path. auto. }
  intros check_res. apply keeps_bind; [apply keeps_probe_state|].
  intros state.
  destruct (_ || _); [apply keeps_ret|].
  destruct (negb _); [apply keeps_ret|].
  apply keeps_bind.
  { apply keeps_run_target. allow_event.
    right; right. exists file_path. auto. }
  intros cat_res. destruct (negb _); [apply keeps_ret|].
  apply keeps_bind; [|intros _; apply keeps_ret].
  apply keeps_write_text. allow_event.
  right; right. exists file_path. eexists. eauto.
Qed.

Lemma lawful_finish_bundle any crs irs :
  keeps (lawful E a bd)
    (finish_bundle E a (clock_iso E []) (target_display_of a)
       (expanduser E (Args.out a)) bd any crs irs).
Proof.
  unfold finish_bundle.
  apply keeps_bind; [apply keeps_clock|]. intros finished.
  apply keeps_bind; [apply keeps_clock|]. intros duration.
  assert (Hdesc : forall status,
            status = "ok" \/ status = "partial" \/ status = "error" ->
            manifest_describes E a
              (Manifest.mk (target_display_of a) (mode_text (Args.mode a))
                 (if Py.is_empty (Args.service a) then None
                  else Some (Args.service a))
                 (Args.since a) (clock_iso E []) finished duration crs irs
                 status (gethostname E))).
  { intros status Hs. repeat split; auto. }
  apply keeps_bind.
  { apply keeps_write_text. allow_event. left. eexists. repeat split.
    apply Hdesc. destruct any; auto. }
  intros _. apply keeps_bind.
  { apply keeps_attempt, keeps_tar_gz. allow_event. auto. }
  intros packed.
  assert (Hfail : forall text,
            keeps (lawful E a bd)
              (print ("ERROR: failed to create archive: " ++ text) ;;
               write_text E (path_join bd "manifest.json")
                 (Json (Manifest.set_overall_status "error"
                          (Manifest.mk (target_display_of a)
                             (mode_text (Args.mode a))
                             (if Py.is_empty (Args.service a) then None
                              else Some (Args.service a))
                             (Args.since a) (clock_iso E []) finished
                             duration crs irs
                             (if any then "partial" else "ok")
                             (gethostname E)))) ;;
               ret 2%Z)).
  { intros text. apply keeps_bind; [apply keeps_print; allow_event; exact I|].
    intros _. apply keeps_bind; [|intros _; apply keeps_ret].
    apply keeps_write_text. allow_event. left. eexists. repeat split.
    apply (Hdesc "error"). auto. }
  destruct packed as [u|[text|text|text|]];
    [|apply Hfail|apply Hfail|apply keeps_raise ..].
  repeat (apply keeps_bind; [apply keeps_print; allow_event; exact I|intros _]).
  apply keeps_ret.
Qed.

End Lawful.

Section WholeRun.

Variable E : Env.
Variable a : Args.t.

(** The two loops and the end of the run keep the trace lawful. *)
Lemma lawful_tail (bd : string) :
  keeps (lawful E a bd)
    (st1 <- for_each (run_catalog_entry E a (path_join bd "commands"))
              (build_commands (Args.service a) (Args.since a)) (false, []) ;;
     let '(any_failures, command_results) := st1 in
     st2 <- for_each (collect_include E a (path_join bd "files"))
              (include_paths (Args.include a)) (any_failures, []) ;;
     let '(any_failures, include_results) := st2 in
     finish_bundle E a (clock_iso E []) (target_display_of a)
       (expanduser E (Args.out a)) bd
       any_failures command_results include_results).
Proof.
  apply keeps_bind.
  { apply keeps_for_each. intros s x Hx. now apply lawful_run_catalog_entry. }
  intros [any crs]. apply keeps_bind.
  { apply keeps_for_each. intros s x Hx. now apply lawful_collect_include. }
  intros [any' irs]. apply lawful_finish_bundle.
Qed.

Lemma lawful_nil (bd : string) : lawful E a bd [].
Proof. split; [constructor | exact I]. Qed.

Lemma lawful_cons (bd : string) (e : event) (t : trace) :
  permitted E a bd e -> answered E t e -> lawful E a bd t ->
  lawful E a bd (e :: t).
Proof. intros Hp Ha [Hall Hc]. split; [now constructor | now split]. Qed.

(** Every run from the empty trace is lawful for the bundle directory of
    some timestamp. *)
Lemma collect_bundle_lawful :
  exists ts, lawful E a (bundle_dir_of E a ts) (fst (collect_bundle E a [])).
Proof.
  unfold collect_bundle.
  rewrite (bind_ret_eq (now_iso E) _ [] [] (clock_iso E []) eq_refl).
  fold (host_missing a).
  destruct (host_missing a) eqn:Hhost.
  { exists EmptyString. simpl.
    apply lawful_cons; [exact I | exact I | apply lawful_nil]. }
  assert (Hprobe :
    exists t1 r,
      match Args.mode a with
      | Local => ret (true, EmptyString)
      | Ssh => check_ssh_connectivity E a
      end [] = (t1, r)
      /\ forall bd, lawful E a bd t1).
  { destruct (Args.mode a) eqn:Hmode.
    - exists [], (Ret (true, EmptyString)). split; [reflexivity|].
      intros bd. apply lawful_nil.
    - unfold check_ssh_connectivity, bind, subprocess_run.
      assert (Hl : forall bd,
                lawful E a bd
                  [Spawn (build_ssh_base a ++ ["true"])%list 10
                     (subprocess_run_end E []
                        (build_ssh_base a ++ ["true"])%list 10)]).
      { intros bd. apply lawful_cons; [|reflexivity|apply lawful_nil].
        left. auto. }
      destruct (subprocess_run_end E [] _ 10)
        as [[rc out err|o e text|text|text] ms] eqn:Hp; cbn [proc_end_of].
      + destruct (negb (rc =? 0)%Z); unfold ret; eexists _, _;
          (split; [reflexivity|exact Hl]).
      + unfold ret. eexists _, _. split; [reflexivity|exact Hl].
      + unfold ret. eexists _, _. split; [reflexivity|exact Hl].
      + unfold raise. eexists _, _. split; [reflexivity|exact Hl]. }
  destruct Hprobe as (t1 & [[ok msg]|e] & Hrun1 & Hl1).
  2:{ exists EmptyString. rewrite (bind_raise_eq _ _ _ _ _ Hrun1). apply Hl1. }
  rewrite (bind_ret_eq _ _ _ _ _ Hrun1).
  destruct ok; cbn [negb].
  2:{ exists EmptyString. unfold bind, print, ret. simpl.
      apply lawful_cons; [exact I | exact I | apply Hl1]. }
  set (t1b := Mkdir (expanduser E (Args.out a)) true
                (mkdir_end_of E t1 (expanduser E (Args.out a)) true) :: t1).
  exists (clock_slug E t1b).
  set (bd := bundle_dir_of E a (clock_slug E t1b)).
  assert (Hb : lawful E a bd t1b).
  { apply lawful_cons; [left; auto | reflexivity | apply Hl1]. }
  destruct (mkdir_end_of E t1 (expanduser E (Args.out a)) true) eqn:Ho.
  2,3: erewrite bind_raise_eq by (unfold mkdir; rewrite Ho; reflexivity);
       exact Hb.
  erewrite bind_ret_eq by (unfold mkdir; rewrite Ho; reflexivity).
  fold t1b. cbv zeta.
  set (t1c := Mkdir (path_join bd "commands") false
                (mkdir_end_of E t1b (path_join bd "commands") false) :: t1b).
  assert (Hc : lawful E a bd t1c).
  { apply lawful_cons; [right; auto | reflexivity | exact Hb]. }
  set (t1d := Mkdir (path_join bd "files") false
                (mkdir_end_of E t1c (path_join bd "files") false) :: t1c).
  assert (Hd : lawful E a bd t1d).
  { apply lawful_cons; [right; auto | reflexivity | exact Hc]. }
  assert (Hprint : forall line t, lawful E a bd t -> lawful E a bd (Print line :: t)).
  { intros line t Ht. now apply lawful_cons. }
  assert (Hlayout :
    attempt (make_bundle_layout E (expanduser E (Args.out a))
               (sanitize_target (target_display_of a))) t1b
    = match mkdir_end_of E t1b (path_join bd "commands") false with
      | MkdirOk =>
          match mkdir_end_of E t1c (path_join bd "files") false with
          | MkdirOk =>
              (t1d, Ret (Ret (bd, path_join bd "commands", path_join bd "files")))
          | MkdirExists text => (t1d, Ret (Raise (FileExistsError text)))
          | MkdirOSError text => (t1d, Ret (Raise (OSError text)))
          end
      | MkdirExists text => (t1c, Ret (Raise (FileExistsError text)))
      | MkdirOSError text => (t1c, Ret (Raise (OSError text)))
      end).
  { unfold attempt, make_bundle_layout, bind, timestamp_slug, mkdir, ret.
    clear Hc Hd. subst t1d t1c bd. unfold bundle_dir_of.
    destruct (mkdir_end_of E t1b _ false); try reflexivity.
    destruct (mkdir_end_of E (_ :: t1b) _ false); reflexivity. }
  change (match Args.mode a with
          | Local => "local"
          | Ssh => if Py.truthy (Args.host a) then Py.format_opt (Args.host a)
                   else "unknown"
          end) with (target_display_of a).
  unfold bind at 1. rewrite Hlayout.
  destruct (mkdir_end_of E t1b (path_join bd "commands") false);
    [|unfold bind, print, ret; simpl; now apply Hprint ..].
  destruct (mkdir_end_of E t1c (path_join bd "files") false);
    [|unfold bind, print, ret; simpl; now apply Hprint ..].
  apply (lawful_tail bd t1d Hd).
Qed.

End WholeRun.


(** ** The manifest and the exit code *)

Lemma manifest_write_errors_none (t : trace) :
  manifest_writes t = [] -> manifest_write_errors t = [].
Proof.
  induction t as [|e older IH]; simpl; [reflexivity|].
  destruct e as [| | |path [text|m] err|]; auto.
  intros H. apply app_eq_nil in H as [_ H]. discriminate H.
Qed.

Lemma forallb_map {A B} (f : B -> bool) (g : A -> B) (xs : list A) :
  forallb f (map g xs) = forallb (fun x => f (g x)) xs.
Proof. induction xs as [|x xs IH]; simpl; [reflexivity | now rewrite IH]. Qed.

Section Outcome.

Variable E : Env.

(** From a clean trace, [finish_bundle] writes the manifest, writes it a
    second time exactly when the archive fails, and its exit code follows
    the flag and the archive. *)
Lemma finish_bundle_observed (a : Args.t) started target out_dir bundle_dir
    any crs irs (t2 : trace) :
  clean t2 -> host_missing a = false ->
  let run := finish_bundle E a started target out_dir bundle_dir any crs irs t2 in
  exists m,
    Manifest.overall_status m = (if any then "partial" else "ok")
    /\ Manifest.command_results m = crs
    /\ Manifest.included_files m = irs
    /\ manifest_writes (fst run)
       = ((path_join bundle_dir "manifest.json", m)
          :: (if archive_failed (fst run)
              then [(path_join bundle_dir "manifest.json",
                     Manifest.mk (Manifest.target m) (Manifest.mode m)
                       (Manifest.service m) (Manifest.since m)
                       (Manifest.started_at m) (Manifest.finished_at m)
                       (Manifest.duration_ms m) crs irs "error"
                       (Manifest.collector_host m))]
              else []))%list
    /\ fatal a (fst run) = archive_failed (fst run)
    /\ catalog_runs (fst run) = catalog_runs t2
    /\ file_outcomes (fst run) = file_outcomes t2
    /\ incl t2 (fst run)
    /\ (archived (fst run) = true ->
        exists code, snd run = Ret code /\ archive_failed (fst run) = false)
    /\ match snd run with
       | Ret code =>
           code = (if archive_failed (fst run) then 2
                   else if any then 1 else 0)%Z
           /\ Forall (fun err => err = None) (manifest_write_errors (fst run))
           /\ (archive_failed (fst run) = false ->
               In (TarGz (path_join out_dir (path_name bundle_dir ++ ".tar.gz"))
                     bundle_dir None) (fst run))
       | Raise e => unhandled (fst run) = Some e
       end.
Proof.
  intros (Hm & Ha & Hl & Hp & Har) Hhost. cbv zeta.
  pose proof (manifest_write_errors_none t2 Hm) as He.
  unfold finish_bundle, fatal. rewrite Hhost.
  unfold bind, now_iso, elapsed_since_start, attempt, write_text, tar_gz,
    print, ret, raise.
  exists (Manifest.mk target (mode_text (Args.mode a))
            (if Py.is_empty (Args.service a) then None
             else Some (Args.service a))
            (Args.since a) started (clock_iso E t2) (clock_elapsed_ms E t2)
            crs irs (if any then "partial" else "ok") (gethostname E)).
  split; [reflexivity|]. split; [reflexivity|]. split; [reflexivity|].
  assert (Hincl : forall new, incl t2 (new ++ t2)%list).
  { intros new x Hx. apply in_or_app. now right. }
  destruct (write_error E t2 _) eqn:Hw1; cbn [fst snd].
  - unfold archive_failed, layout_failed, probe_failed, archived in *. simpl.
    rewrite Hm, Ha, Hl, Hp, Har. simpl.
    repeat split; auto; first [apply (Hincl [_]) | discriminate].
  - destruct (tar_error E _ _ _) eqn:Htar; cbn [fst snd].
    + destruct (write_error E (_ :: _) _) eqn:Hw2; cbn [fst snd];
        unfold archive_failed, layout_failed, probe_failed, archived in *;
        simpl; rewrite Hm, Hl, Hp, Har, ?He; simpl; rewrite ?orb_true_r;
        repeat split; auto;
        first [apply (Hincl [_; _; _; _]) | discriminate | idtac].
    + unfold archive_failed, layout_failed, probe_failed, archived in *;
        simpl; rewrite Hm, Ha, Hl, Hp, He; simpl; repeat split; eauto 10.
      apply (Hincl [_; _; _; _; _]).
Qed.


(** C2, amended: a run that returns exits with 2 after a fatal error (no
    host in ssh mode, a failed connectivity probe, a bundle directory that
    could not be created, an archive that could not be created).  Otherwise
    the connectivity probe has passed (ssh mode), the two bundle
    directories are there, every catalog command has been run and every
    include path probed, one manifest is written and the archive is packed,
    and the exit code is 0 when every command exited with 0 and every file
    was fetched, 1 when one of them failed.  A run that has packed the
    archive does return, without a fatal error.  A run that does not return
    ends with the exception of its latest event, one the script has no
    handler for: a process that cannot be started or whose output cannot be
    decoded, a file that cannot be written (the error manifest after a
    failed archive among them), an output directory that cannot be
    created.  Every answer in the trace is the world's. *)
Theorem exit_code_contract (a : Args.t) :
  consistent E (fst (collect_bundle E a []))
  /\ (archived (fst (collect_bundle E a [])) = true ->
      exists code,
        snd (collect_bundle E a []) = Ret code
        /\ fatal a (fst (collect_bundle E a [])) = false)
  /\ match snd (collect_bundle E a []) with
     | Ret code =>
         if fatal a (fst (collect_bundle E a [])) then code = 2%Z
         else
           exists bd m,
             probe_passed a (fst (collect_bundle E a []))
             /\ layout_created bd (fst (collect_bundle E a []))
             /\ map fst (catalog_runs (fst (collect_bundle E a [])))
                = map (fun entry => full_cmd_of a (snd entry))
                    (build_commands (Args.service a) (Args.since a))
             /\ length (file_outcomes (fst (collect_bundle E a [])))
                = length (include_paths (Args.include a))
             /\ manifest_writes (fst (collect_bundle E a []))
                = [(path_join bd "manifest.json", m)]
             /\ In (TarGz
                      (path_join (expanduser E (Args.out a))
                         (path_name bd ++ ".tar.gz")) bd None)
                  (fst (collect_bundle E a []))
             /\ code = (if run_ok (fst (collect_bundle E a [])) then 0
                        else 1)%Z
     | Raise e => unhandled (fst (collect_bundle E a [])) = Some e
     end.
Proof.
  split.
  { destruct (collect_bundle_lawful E a) as (ts & _ & Hc). exact Hc. }
  destruct (collect_bundle_run E a) as [(_ & _ & Har & Hstop)|Hfin].
  { split; [intros H; congruence|].
    destruct (snd (collect_bundle E a [])); [|exact Hstop].
    destruct Hstop as [-> ->]. reflexivity. }
  destruct Hfin as (t2 & started & bundle_dir & any & crs & irs & Hrun
                    & Hclean & Hhost & Hpassed & Hlayout & Hany & Hcrs & Hirs
                    & _ & Hruns & Hfiles).
  destruct (finish_bundle_observed a started (target_display_of a)
              (expanduser E (Args.out a)) bundle_dir any crs irs t2
              Hclean Hhost)
    as (m & Hst & Hc & Hi & Hmw & Hfatal & Hsame & Hsamef & Hincl & Hpacked
        & Hres).
  cbv zeta in Hmw, Hfatal, Hsame, Hsamef, Hincl, Hpacked, Hres.
  rewrite <- Hrun in Hmw, Hfatal, Hsame, Hsamef, Hincl, Hpacked, Hres.
  split.
  { intros H. destruct (Hpacked H) as (code & Hcode & Hnot).
    exists code. split; [exact Hcode | now rewrite Hfatal]. }
  destruct (snd (collect_bundle E a [])) as [code|e]; [|exact Hres].
  destruct Hres as (Hcode & _ & Htar).
  rewrite Hfatal.
  destruct (archive_failed (fst (collect_bundle E a []))); [exact Hcode|].
  exists bundle_dir, m.
  split.
  { unfold probe_passed in *. destruct (Args.mode a); [exact I|].
    destruct Hpassed as (p & Hin & Hp). exists p. auto. }
  split; [destruct Hlayout; split; auto|].
  unfold run_ok. rewrite Hsame, Hsamef, Hruns, Hfiles.
  unfold recorded_runs. rewrite !forallb_map, !map_map. cbn [fst snd].
  split; [now rewrite <- Hcrs, map_map|].
  split; [now rewrite <- Hirs, !length_map|].
  split; [exact Hmw|]. split; [now apply Htar|].
  rewrite Hcode, Hany.
  now destruct (forallb _ crs && forallb _ irs).
Qed.

(** C9: the include loop creates one record per requested path, in list
    order, and every record is either collected with an empty reason or
    uncollected with a non-empty reason; the loop stops early only with the
    exception of its latest event, for which the script has no handler: a
    probe or a fetch that cannot be started or whose output cannot be
    decoded, an artifact that cannot be written. *)
Theorem include_records_wf (a : Args.t) (files_dir raw : string)
    (any0 : bool) (t : trace) :
  match snd (for_each (collect_include E a files_dir) (include_paths raw)
               (any0, []) t) with
  | Ret (_, items) =>
      map Item.path items = include_paths raw /\ Forall item_wf items
  | Raise e =>
      unhandled (fst (for_each (collect_include E a files_dir)
                        (include_paths raw) (any0, []) t)) = Some e
  end.
Proof.
  destruct (spec_for_each (collect_include E a files_dir) (include_inv any0)
              (include_paths raw)
              (fun seen x s new =>
                 spec_collect_include E a files_dir any0 seen x s new)
              [] (any0, []) []) with (t := t) as (new & Hfst & _ & Hres).
  { repeat split; simpl; [now rewrite orb_false_r | constructor]. }
  rewrite Hfst.
  destruct (snd (for_each _ _ _ t)) as [[any items]|e]; [|exact Hres].
  destruct Hres as (_ & Hseen & Hwf & _). auto.
Qed.

(** ** Single operations *)

Lemma utf8_decode_char (c : ascii) (rest : list Byte.byte) :
  Py.utf8_decode (Py.utf8_encode_char c ++ rest)%list
  = option_map (String c) (Py.utf8_decode rest).
Proof. destruct c as [[] [] [] [] [] [] [] []]; reflexivity. Qed.

(** Text below code point 256 survives encoding and decoding. *)
Lemma utf8_decode_encode (s : string) :
  Py.utf8_decode (Py.utf8_encode s) = Some s.
Proof.
  induction s as [|c s IH]; [reflexivity|].
  cbn [Py.utf8_encode]. now rewrite utf8_decode_char, IH.
Qed.

(** C3: when the process exceeds its timeout, [run_target] returns (it
    does not raise) a result with exit code 124, the partial stdout, and
    the partial stderr followed by a line break and the note
    [Timed out after <N>s].  The partial output is empty where the
    exception carries none, the text itself where it carries text, and the
    decoded bytes where it carries bytes: whatever text the process had
    printed, its bytes come back as that text. *)
Theorem run_target_timeout (a : Args.t) (command : string) (timeout : Z)
    (t : trace) (out err : pyval) (text : string) (ms : Z) :
  subprocess_run_end E t (full_cmd_of a command) timeout
    = mk_proc (TimedOut out err text) ms ->
  exists r,
    run_target E a command timeout t
    = (Spawn (full_cmd_of a command) timeout
         (mk_proc (TimedOut out err text) ms) :: t, Ret r)
    /\ Cmd.command r = command
    /\ Cmd.returncode r = 124%Z
    /\ Cmd.stdout r
       = match out with
         | PyNone => EmptyString
         | PyBytes b => match Py.utf8_decode b with
                        | Some s => s
                        | None => decode_lossy E b
                        end
         | PyStr s => s
         end
    /\ (forall s, out = PyBytes (Py.utf8_encode s) -> Cmd.stdout r = s)
    /\ Cmd.stderr r
       = match err with
         | PyNone => EmptyString
         | PyBytes b => match Py.utf8_decode b with
                        | Some s => s
                        | None => decode_lossy E b
                        end
         | PyStr s => s
         end ++ NL ++ "Timed out after " ++ Py.str_of_int timeout ++ "s"
    /\ (forall s, err = PyBytes (Py.utf8_encode s) ->
        Cmd.stderr r
        = s ++ NL ++ "Timed out after " ++ Py.str_of_int timeout ++ "s").
Proof.
  intros Hend. unfold run_target, bind, subprocess_run. rewrite Hend. simpl.
  eexists. split; [reflexivity|]. simpl.
  split; [reflexivity|]. split; [reflexivity|].
  split; [now destruct out|].
  split.
  { intros s ->. simpl. unfold decode_replace.
    now rewrite utf8_decode_encode. }
  split; [now destruct err|].
  intros s ->. simpl. unfold decode_replace.
  now rewrite utf8_decode_encode.
Qed.

(** C10: with a port below 1 or above 65535, in either mode, [main]
    prints the error and returns 2, and nothing else happens: no process
    is run and no directory is created. *)
Theorem invalid_port_exits_2 (a : Args.t) (t : trace) :
  (Args.port_ssh a < 1 \/ Args.port_ssh a > 65535)%Z ->
  main E a t
  = (Print "ERROR: --port-ssh must be between 1 and 65535" :: t, Ret 2%Z).
Proof.
  intros Hport. unfold main.
  assert (H : (Args.port_ssh a <? 1)%Z || (Args.port_ssh a >? 65535)%Z = true).
  { apply orb_true_iff. destruct Hport; [left|right]; lia. }
  now rewrite H.
Qed.


End Outcome.

(** ** The theorems at sample runs *)

Example run_all_ok :
  snd (collect_bundle (world_probe "READABLE") (local_args 22 "/etc/hostname") [])
  = Ret 0%Z.
Proof. vm_compute. reflexivity. Qed.

Example run_unreadable :
  snd (collect_bundle (world_probe "UNREADABLE")
         (local_args 22 "/etc/hostname,/root/secret") [])
  = Ret 1%Z.
Proof. vm_compute. reflexivity. Qed.

Example include_paths_trimmed :
  include_paths " /etc/hostname , ,/root/secret," = ["/etc/hostname"; "/root/secret"].
Proof. reflexivity. Qed.


(** C2 as worded, where the disk fills up while the archive is packed:
    the archive fails, the script prints the error and writes the manifest
    again, that write fails too, and the run ends with its [OSError]
    instead of the exit code 2. *)
Lemma exit_code_archive_failure_counterexample :
  archive_failed
    (fst (collect_bundle world_full_disk (local_args 22 EmptyString) []))
  = true
  /\ snd (collect_bundle world_full_disk (local_args 22 EmptyString) [])
     = Raise (OSError "No space left on device")
  /\ snd (collect_bundle world_full_disk (local_args 22 EmptyString) [])
     <> Ret 2%Z
  /\ manifest_write_errors
       (fst (collect_bundle world_full_disk (local_args 22 EmptyString) []))
     = [None; Some "No space left on device"].
Proof. vm_compute. repeat split. discriminate. Qed.

(** C3 at a command that times out after 60 seconds, having printed
    [partial]. *)
Lemma run_target_timeout_witness :
  exists r t,
    run_target world_timeout (local_args 22 EmptyString) "uptime" 60 [] = (t, Ret r)
    /\ Cmd.returncode r = 124%Z
    /\ Cmd.stdout r = "partial"
    /\ Cmd.stderr r = NL ++ "Timed out after 60s".
Proof.
  destruct (run_target_timeout world_timeout (local_args 22 EmptyString) "uptime"
              60 [] (PyBytes (Py.utf8_encode "partial")) PyNone "timed out"
              60000 eq_refl)
    as (r & Hrun & _ & Hrc & _ & Hout & Herr & _).
  exists r. eexists. split; [exact Hrun|].
  split; [exact Hrc|]. split; [now apply Hout | exact Herr].
Defined.

(** C10 at port 0 in ssh mode and at port 70000 in local mode. *)
Lemma invalid_port_exits_2_witness :
  main (world_probe "READABLE") (ssh_args 0) []
  = ([Print "ERROR: --port-ssh must be between 1 and 65535"], Ret 2%Z)
  /\ main (world_probe "READABLE") (local_args 70000 EmptyString) []
     = ([Print "ERROR: --port-ssh must be between 1 and 65535"], Ret 2%Z).
Proof.
  split; apply invalid_port_exits_2; simpl; lia.
Defined.



Example run_unreachable :
  collect_bundle world_unreachable (ssh_args 22) []
  = ([Print "ERROR: SSH connectivity check failed: ssh: connect to host db-1: timed out";
      Spawn ["ssh"; "-o"; "BatchMode=yes"; "-o"; "ConnectTimeout=5"; "-p";
             "22"; "db-1"; "true"] 10
        (mk_proc (Completed 255 EmptyString
                    "ssh: connect to host db-1: timed out") 1)],
     Ret 2%Z).
Proof. vm_compute. reflexivity. Qed.

Example run_no_space :
  snd (collect_bundle world_no_space (local_args 22 EmptyString) []) = Ret 2%Z.
Proof. vm_compute. reflexivity. Qed.

(** A readable file that is no text stops the run: the fetch ends with
    output that cannot be decoded, and nothing catches the exception. *)
Example run_binary_file :
  snd (collect_bundle world_binary_file (local_args 22 "/var/lib/data.bin") [])
  = Raise (UnicodeDecodeError
             "'utf-8' codec can't decode byte 0xff in position 0: invalid start byte").
Proof. vm_compute. reflexivity. Qed.

(** So does a connectivity probe whose output cannot be decoded. *)
Example run_binary_banner :
  collect_bundle world_binary_banner (ssh_args 22) []
  = ([Spawn ["ssh"; "-o"; "BatchMode=yes"; "-o"; "ConnectTimeout=5"; "-p";
             "22"; "db-1"; "true"] 10
        (mk_proc
           (Undecodable
              "'utf-8' codec can't decode byte 0xff in position 0: invalid start byte")
           1)],
     Raise (UnicodeDecodeError
              "'utf-8' codec can't decode byte 0xff in position 0: invalid start byte")).
Proof. vm_compute. reflexivity. Qed.

(** * Further properties of the code *)

(** ** More facts about the built-ins *)


Lemma all_chars_lstrip_by p q (s : string) :
  Py.all_chars q s = true -> Py.all_chars q (Py.lstrip_by p s) = true.
Proof.
  induction s as [|c r IH]; simpl; [auto|].
  intros H. destruct (p c); [|exact H].
  apply andb_true_iff in H as [_ Hr]. auto.
Qed.

Lemma all_chars_rstrip_by p q (s : string) :
  Py.all_chars q s = true -> Py.all_chars q (Py.rstrip_by p s) = true.
Proof.
  induction s as [|c r IH]; simpl; [auto|].
  intros H. apply andb_true_iff in H as [Hc Hr]. specialize (IH Hr).
  destruct (Py.rstrip_by p r); [destruct (p c); simpl; auto; now rewrite Hc|].
  simpl in *. now rewrite Hc.
Qed.

Lemma lstrip_by_fixed p (s : string) :
  match s with String c _ => p c = false | EmptyString => True end ->
  Py.lstrip_by p s = s.
Proof. destruct s as [|c r]; simpl; [auto|]. now intros ->. Qed.

Lemma rstrip_by_fixed p (s : string) :
  ends_with p s = false -> Py.rstrip_by p s = s.
Proof.
  induction s as [|c r IH]; [reflexivity|].
  intros H. cbn [Py.rstrip_by]. destruct r as [|d r'].
  - simpl in *. now rewrite H.
  - rewrite IH by exact H. reflexivity.
Qed.

Lemma rstrip_by_cons p c (s : string) :
  p c = false -> Py.rstrip_by p (String c s) = String c (Py.rstrip_by p s).
Proof. intros Hc. simpl. destruct (Py.rstrip_by p s); [now rewrite Hc|reflexivity]. Qed.

(** What [strip] leaves neither starts nor ends with a stripped character. *)
Lemma strip_by_ends p (s : string) :
  match Py.strip_by p s with String c _ => p c = false | EmptyString => True end
  /\ ends_with p (Py.strip_by p s) = false.
Proof.
  unfold Py.strip_by. split.
  - destruct (lstrip_by_split p s) as (_ & _ & _ & Hhd).
    destruct (Py.lstrip_by p s) as [|c r]; [exact I|].
    now rewrite (rstrip_by_cons p c r Hhd).
  - destruct (rstrip_by_split p (Py.lstrip_by p s)) as (_ & _ & _ & H). exact H.
Qed.

Lemma strip_by_fixed p (s : string) :
  match s with String c _ => p c = false | EmptyString => True end ->
  ends_with p s = false -> Py.strip_by p s = s.
Proof.
  intros Hh He. unfold Py.strip_by. rewrite (lstrip_by_fixed p s Hh).
  now apply rstrip_by_fixed.
Qed.

Lemma starts_with_false p (s : string) :
  match s with String c _ => p c = false | EmptyString => True end
  <-> starts_with p s = false.
Proof. destruct s; simpl; tauto. Qed.

(** A slug is left as it is. *)
Lemma sanitize_target_fixed (y : string) :
  y <> EmptyString -> Py.all_chars name_char y = true ->
  starts_with (Py.mem "_") y = false -> ends_with (Py.mem "_") y = false ->
  sanitize_target y = y.
Proof.
  intros Hne Hcl Hh He. unfold sanitize_target, Py.re_sub_neg_class_plus,
    Py.strip_chars.
  rewrite (re_sub_runs_id name_char "_" y Hcl).
  rewrite (strip_by_fixed (Py.mem "_") y); [|now apply starts_with_false|exact He].
  destruct y; [congruence|reflexivity].
Qed.

Lemma name_char_no_sep (s : string) :
  Py.all_chars name_char s = true -> no_sep s = true.
Proof.
  apply all_chars_impl. intros c Hc. destruct (name_char_facts c Hc) as [_ H].
  simpl in H. rewrite orb_false_r in H. now rewrite H.
Qed.

Lemma sanitize_target_facts (raw : string) :
  sanitize_target raw <> EmptyString
  /\ Py.all_chars name_char (sanitize_target raw) = true
  /\ starts_with (Py.mem "_") (sanitize_target raw) = false
  /\ ends_with (Py.mem "_") (sanitize_target raw) = false.
Proof.
  unfold sanitize_target, Py.strip_chars, Py.re_sub_neg_class_plus.
  set (x := Py.re_sub_runs name_char "_" false raw).
  assert (Hx : Py.all_chars name_char x = true)
    by (apply re_sub_runs_class; reflexivity).
  destruct (strip_by_ends (Py.mem "_") x) as [Hh He].
  assert (Hc : Py.all_chars name_char (Py.strip_by (Py.mem "_") x) = true)
    by (apply all_chars_rstrip_by, all_chars_lstrip_by, Hx).
  apply starts_with_false in Hh.
  destruct (Py.strip_by (Py.mem "_") x) as [|c r]; simpl Py.or_else.
  - repeat split; try reflexivity. discriminate.
  - repeat split; auto. discriminate.
Qed.

(** X1: the target slug of [sanitize_target] is never empty, is made of
    [A-Za-z0-9_.-] only (so it holds no path separator), neither starts
    nor ends with an underscore, and sanitizing it again changes nothing. *)
Theorem sanitize_target_sound (raw : string) :
  sanitize_target raw <> EmptyString
  /\ Py.all_chars name_char (sanitize_target raw) = true
  /\ no_sep (sanitize_target raw) = true
  /\ starts_with (Py.mem "_") (sanitize_target raw) = false
  /\ ends_with (Py.mem "_") (sanitize_target raw) = false
  /\ sanitize_target (sanitize_target raw) = sanitize_target raw.
Proof.
  destruct (sanitize_target_facts raw) as (Hne & Hcl & Hh & He).
  repeat split; auto.
  - now apply name_char_no_sep.
  - now apply sanitize_target_fixed.
Qed.

(** ** The include list *)

Lemma split_pieces_no_sep (sep : ascii) (s : string) :
  Forall (fun piece => Py.all_chars (fun c => negb (Ascii.eqb c sep)) piece = true)
    (Py.split sep s)
  /\ Py.split sep s <> [].
Proof.
  induction s as [|c r [IH Hne]]; simpl.
  - split; [repeat constructor | discriminate].
  - destruct (Py.split sep r) as [|l ls]; [congruence|].
    inversion IH as [|? ? Hl Hls]; subst.
    destruct (Ascii.eqb c sep) eqn:Hc; split; try discriminate.
    + repeat constructor; auto.
    + constructor; [simpl; now rewrite Hc, Hl | exact Hls].
Qed.

Lemma split_no_sep (sep : ascii) (x : string) :
  Py.all_chars (fun c => negb (Ascii.eqb c sep)) x = true ->
  Py.split sep x = [x].
Proof.
  induction x as [|c r IH]; simpl; [reflexivity|].
  intros H. apply andb_true_iff in H as [Hc Hr]. rewrite (IH Hr).
  apply negb_true_iff in Hc. now rewrite Hc.
Qed.

Lemma split_app_sep (sep : ascii) (x rest : string) :
  Py.all_chars (fun c => negb (Ascii.eqb c sep)) x = true ->
  Py.split sep (x ++ String sep rest) = x :: Py.split sep rest.
Proof.
  induction x as [|c r IH]; simpl.
  - intros _. destruct (split_pieces_no_sep sep rest) as [_ Hne].
    destruct (Py.split sep rest); [congruence|]. now rewrite Ascii.eqb_refl.
  - intros H. apply andb_true_iff in H as [Hc Hr]. rewrite (IH Hr).
    apply negb_true_iff in Hc. now rewrite Hc.
Qed.

Lemma strip_trimmed (x : string) : trimmed x = true -> Py.strip x = x.
Proof.
  unfold trimmed. intros H. apply andb_true_iff in H as [Hs He].
  apply negb_true_iff in Hs, He.
  apply strip_by_fixed; [|exact He].
  destruct x; [exact I | exact Hs].
Qed.

(** X2: every path [include_paths] returns is non-empty, holds no comma and
    has no white space at either end, whatever the raw list. *)
Theorem include_paths_items_clean (raw : string) :
  Forall (fun item => clean_item item = true) (include_paths raw).
Proof.
  unfold include_paths. apply Forall_forall. intros x Hx.
  apply filter_In in Hx as [Hin Hne]. apply in_map_iff in Hin as (y & <- & Hy).
  destruct (split_pieces_no_sep "," raw) as [Hall _].
  rewrite Forall_forall in Hall. specialize (Hall y Hy).
  unfold clean_item, no_comma, trimmed. rewrite Hne. simpl.
  unfold Py.strip, Py.strip_by.
  rewrite (all_chars_rstrip_by _ _ _ (all_chars_lstrip_by _ _ _ Hall)). simpl.
  destruct (strip_by_ends Py.isspace y) as [Hh He]. unfold Py.strip_by in *.
  unfold ends_with_space. rewrite He.
  apply starts_with_false in Hh. unfold starts_with in Hh.
  unfold starts_with_space. now rewrite Hh.
Qed.

(** X3: joining such paths with commas and reading the list back gives
    the same paths in the same order; the empty list is read back from the
    empty text. *)
Theorem include_paths_join (items : list string) :
  Forall (fun item => clean_item item = true) items ->
  include_paths (Py.join "," items) = items.
Proof.
  unfold include_paths.
  induction items as [|x rest IH]; intros Hall; [reflexivity|].
  inversion Hall as [|? ? Hx Hrest]; subst.
  unfold clean_item in Hx. apply andb_true_iff in Hx as [Hx Htr].
  apply andb_true_iff in Hx as [Hne Hnc].
  assert (Hhead : forall tail,
            filter (fun item => negb (Py.is_empty item))
              (map Py.strip (x :: tail))
            = x :: filter (fun item => negb (Py.is_empty item))
                     (map Py.strip tail)).
  { intros tail. simpl. rewrite (strip_trimmed x Htr). now rewrite Hne. }
  destruct rest as [|y rest'].
  - simpl Py.join. rewrite (split_no_sep "," x Hnc). apply Hhead.
  - change (Py.join "," (x :: y :: rest'))
      with (x ++ String "," (Py.join "," (y :: rest'))).
    rewrite (split_app_sep "," x _ Hnc), Hhead. f_equal. now apply IH.
Qed.

(** ** Names and paths *)

(** X4: a leading separator does not count: an absolute path and the same
    path without its leading separator get the same artifact name, so the
    two share one artifact file. *)
Theorem safe_file_name_leading_sep (p : string) :
  starts_with_space p = false ->
  safe_file_name (String "/" p) = safe_file_name p.
Proof.
  intros Hs. unfold safe_file_name, Py.strip, Py.strip_by, Py.lstrip_chars.
  assert (Hp : Py.lstrip_by Py.isspace p = p).
  { apply lstrip_by_fixed. destruct p; [exact I | exact Hs]. }
  rewrite Hp. cbn [Py.lstrip_by]. change (Py.isspace "/") with false. cbv iota.
  rewrite (rstrip_by_cons Py.isspace "/" p eq_refl). reflexivity.
Qed.

Lemma no_sep_app (a b : string) : no_sep (a ++ b) = no_sep a && no_sep b.
Proof.
  unfold no_sep. induction a; simpl; [reflexivity|]. rewrite IHa.
  apply andb_assoc.
Qed.

Lemma path_name_no_sep (name : string) :
  no_sep name = true -> path_name name = name.
Proof.
  destruct name as [|c r]; [reflexivity|].
  unfold no_sep. cbn [Py.all_chars path_name]. intros H.
  apply andb_true_iff in H as [Hc Hr]. rewrite Hr.
  apply negb_true_iff in Hc. now rewrite Hc.
Qed.

Lemma path_name_after_sep (dir name : string) :
  no_sep name = true -> path_name (dir ++ "/" ++ name) = name.
Proof.
  intros Hn. induction dir as [|c r IH].
  - simpl. fold (no_sep name). now rewrite Hn.
  - cbn [String.append path_name]. fold (no_sep (r ++ "/" ++ name)).
    rewrite no_sep_app. simpl. rewrite andb_false_r. exact IH.
Qed.

Lemma ends_with_sep (dir : string) :
  ends_with (Ascii.eqb "/") dir = true -> no_sep dir = false.
Proof.
  unfold no_sep. induction dir as [|c r IH]; [discriminate|].
  destruct r as [|c' r'].
  - cbn [ends_with Py.all_chars]. intros H. apply Ascii.eqb_eq in H. now subst c.
  - intros H. cbn [Py.all_chars] in *. rewrite (IH H). apply andb_false_r.
Qed.

Lemma path_name_after_root (dir name : string) :
  ends_with (Ascii.eqb "/") dir = true -> no_sep name = true ->
  path_name (dir ++ name) = name.
Proof.
  intros He Hn. induction dir as [|c r IH]; [discriminate|].
  destruct r as [|c' r'].
  - cbn [ends_with] in He. apply Ascii.eqb_eq in He. subst c.
    simpl. fold (no_sep name). now rewrite Hn.
  - change (ends_with (Ascii.eqb "/") (String c' r') = true) in He.
    cbn [String.append path_name].
    change (Py.all_chars (fun d => negb (Ascii.eqb d "/"))
              (String c' (r' ++ name)))
      with (no_sep (String c' r' ++ name)).
    rewrite no_sep_app, (ends_with_sep _ He). apply (IH He).
Qed.

Lemma path_name_join (dir name : string) :
  no_sep name = true -> path_name (path_join dir name) = name.
Proof.
  intros Hn. unfold path_join.
  destruct (String.eqb dir "."); [now apply path_name_no_sep|].
  destruct (ends_with (Ascii.eqb "/") dir) eqn:He.
  - now apply path_name_after_root.
  - now apply path_name_after_sep.
Qed.

(** X5: the artifact file name holds no path separator, so the artifact
    path is a direct child of the files directory, whatever the requested
    path. *)
Theorem artifact_in_files_dir (files_dir file_path : string) :
  no_sep (safe_file_name file_path ++ ".txt") = true
  /\ path_name (path_join files_dir (safe_file_name file_path ++ ".txt"))
     = safe_file_name file_path ++ ".txt".
Proof.
  assert (H : no_sep (safe_file_name file_path ++ ".txt") = true).
  { rewrite no_sep_app. rewrite (name_char_no_sep _ (safe_file_name_class _)).
    reflexivity. }
  split; [exact H | now apply path_name_join].
Qed.


(** ** Whole runs and single operations *)


Section More.

Variable E : Env.

(** X6: with a timestamp free of separators, the last component of the
    bundle directory is [incident_<slug>_<timestamp>], the name under which
    the archive stores it and from which the archive is named. *)
Theorem bundle_archive_name (a : Args.t) (ts : string) :
  no_sep ts = true ->
  path_name (bundle_dir_of E a ts)
  = "incident_" ++ sanitize_target (target_display_of a) ++ "_" ++ ts.
Proof.
  intros Hts. unfold bundle_dir_of. apply path_name_join.
  rewrite !no_sep_app, Hts.
  destruct (sanitize_target_facts (target_display_of a)) as (_ & Hcl & _).
  now rewrite (name_char_no_sep _ Hcl).
Qed.

(** X7: the connectivity check runs one process with a timeout of 10
    seconds.  It succeeds, with an empty message, exactly when the process
    exits with 0; another exit code gives a failed check whose message is
    the trimmed stderr, else the trimmed stdout, else [ssh failed]; a
    timeout and a process that cannot be started give a failed check with
    the text of the exception.  It raises when the output of the process
    cannot be decoded: that exception is not caught. *)
Theorem check_ssh_connectivity_outcomes (a : Args.t) (t : trace) :
  fst (check_ssh_connectivity E a t)
  = Spawn (build_ssh_base a ++ ["true"])%list 10
      (subprocess_run_end E t (build_ssh_base a ++ ["true"])%list 10) :: t
  /\ snd (check_ssh_connectivity E a t)
     = match proc_end_of
               (subprocess_run_end E t (build_ssh_base a ++ ["true"])%list 10)
       with
       | Completed rc out err =>
           if (rc =? 0)%Z then Ret (true, EmptyString)
           else Ret (false,
                     Py.strip (if Py.is_empty err
                               then (if Py.is_empty out then "ssh failed"
                                     else out)
                               else err))
       | TimedOut _ _ text => Ret (false, text)
       | SpawnFailed text => Ret (false, text)
       | Undecodable text => Raise (UnicodeDecodeError text)
       end.
Proof.
  unfold check_ssh_connectivity, bind, subprocess_run.
  destruct (subprocess_run_end E t _ 10) as [[rc out err|o e text|text|text] ms];
    cbn [proc_end_of]; split; try reflexivity;
    destruct (rc =? 0)%Z; try reflexivity.
  cbn [negb]. unfold ret. cbn [snd]. now destruct err, out.
Qed.

(** X8: [run_target] starts exactly one process; whatever the exit code it
    returns a result that carries the command text, the exit code and the
    two outputs unchanged; a timeout gives exit code 124; it raises when
    the process cannot be started ([OSError]) and when its output cannot be
    decoded ([UnicodeDecodeError]). *)
Theorem run_target_outcomes (a : Args.t) (command : string) (timeout : Z)
    (t : trace) :
  fst (run_target E a command timeout t)
  = Spawn (full_cmd_of a command) timeout
      (subprocess_run_end E t (full_cmd_of a command) timeout) :: t
  /\ match proc_end_of
             (subprocess_run_end E t (full_cmd_of a command) timeout) with
     | Completed rc out err =>
         exists r, snd (run_target E a command timeout t) = Ret r
                   /\ Cmd.command r = command /\ Cmd.returncode r = rc
                   /\ Cmd.stdout r = out /\ Cmd.stderr r = err
     | TimedOut _ _ _ =>
         exists r, snd (run_target E a command timeout t) = Ret r
                   /\ Cmd.command r = command /\ Cmd.returncode r = 124%Z
     | SpawnFailed text =>
         snd (run_target E a command timeout t) = Raise (OSError text)
     | Undecodable text =>
         snd (run_target E a command timeout t)
         = Raise (UnicodeDecodeError text)
     end.
Proof.
  unfold run_target, bind, subprocess_run.
  destruct (subprocess_run_end E t _ timeout)
    as [[rc out err|o e text|text|text] ms];
    simpl; split; eauto 10.
Qed.

(** X9: when the host is missing in ssh mode, or the connectivity probe
    fails (it exits with another code than 0, exceeds its timeout or cannot
    be started), the run exits with 2 and has done nothing but printing and
    running that probe: no directory, no file, no command. *)
Theorem prerun_failure_touches_nothing (a : Args.t) :
  host_missing a = true
  \/ (Args.mode a = Ssh
      /\ failed_check
           (subprocess_run_end E [] (build_ssh_base a ++ ["true"])%list 10)
         = true) ->
  snd (collect_bundle E a []) = Ret 2%Z
  /\ Forall prerun_event (fst (collect_bundle E a [])).
Proof.
  intros H. unfold collect_bundle.
  rewrite (bind_ret_eq (now_iso E) _ [] [] (clock_iso E []) eq_refl).
  fold (host_missing a).
  destruct (host_missing a) eqn:Hhost.
  { simpl. split; [reflexivity | repeat constructor]. }
  destruct H as [H|[Hmode Hcheck]]; [discriminate H|].
  rewrite Hmode.
  unfold check_ssh_connectivity, bind, subprocess_run, failed_check in *.
  destruct (subprocess_run_end E [] _ 10)
    as [[rc out err|o e text|text|text] ms]; cbn [proc_end_of] in *;
    [rewrite Hcheck| | |discriminate Hcheck];
    simpl; (split; [reflexivity | repeat constructor]).
Qed.

(** X10: in every run there is a timestamp such that each event is
    permitted for the bundle directory of that timestamp: each process is
    the connectivity probe (ssh mode only), a catalog command (timeout 60),
    a file probe (20) or a fetch (30) of a requested path; each directory
    is the output directory or one of the two bundle directories; each file
    is the manifest, the log of a catalog command or the artifact of a
    requested path, inside the bundle directory; the archive packs the
    bundle directory beside it. *)
Theorem run_events_permitted (a : Args.t) :
  exists ts,
    Forall (permitted E a (bundle_dir_of E a ts)) (fst (collect_bundle E a [])).
Proof.
  destruct (collect_bundle_lawful E a) as (ts & Hp & _). now exists ts.
Qed.

(** X11: in local mode every process of a run is [bash -lc <command>]: no
    ssh process is started. *)
Theorem local_mode_runs_bash_only (a : Args.t) :
  Args.mode a = Local ->
  Forall runs_bash (fst (collect_bundle E a [])).
Proof.
  intros Hmode. destruct (collect_bundle_lawful E a) as (ts & Hp & _).
  eapply Forall_impl; [|exact Hp].
  intros [| argv timeout p | | |]; simpl; auto.
  unfold permitted_process, full_cmd_of. rewrite Hmode.
  intros [(Hssh & _)|[(entry & _ & -> & _)|(p0 & _ & [[-> _]|[-> _]])]];
    [congruence | eauto ..].
Qed.

Lemma manifest_writes_permitted (a : Args.t) (bd : string) (t : trace) :
  Forall (permitted E a bd) t ->
  Forall (fun pm => fst pm = path_join bd "manifest.json"
                    /\ manifest_describes E a (snd pm))
    (manifest_writes t).
Proof.
  induction t as [|e older IH]; intros H; [constructor|].
  inversion H as [|? ? He Ho]; subst. specialize (IH Ho).
  destruct e as [| | |path [text|m] err|]; simpl; auto.
  apply Forall_app. split; [exact IH|]. constructor; [|constructor].
  simpl in He.
  destruct He as [(m' & Hm & Hpath & Hd)|[(? & ? & _ & Hc & _)|(? & ? & _ & Hc & _)]];
    [|discriminate Hc ..].
  injection Hm as <-. auto.
Qed.

(** X12: every manifest a run writes is written to [manifest.json] of the
    bundle directory and carries the target, the mode, the service (none
    when empty), the lookback window, the start time and the collector host
    of the run, with a status among ok, partial and error. *)
Theorem manifests_describe_run (a : Args.t) :
  exists ts,
    Forall (fun pm => fst pm = path_join (bundle_dir_of E a ts) "manifest.json"
                      /\ manifest_describes E a (snd pm))
      (manifest_writes (fst (collect_bundle E a []))).
Proof.
  destruct (collect_bundle_lawful E a) as (ts & Hp & _). exists ts.
  now apply manifest_writes_permitted.
Qed.

(** X13: in a world where every process can be started and prints text
    that can be decoded, every write succeeds and the output directory can
    be created, the run returns, with exit code 0, 1 or 2, whatever the
    commands and the probes answer. *)
Theorem run_returns_when_nothing_escapes (a : Args.t) :
  (forall t argv timeout text,
     proc_end_of (subprocess_run_end E t argv timeout) <> SpawnFailed text) ->
  (forall t argv timeout text,
     proc_end_of (subprocess_run_end E t argv timeout) <> Undecodable text) ->
  (forall t path, write_error E t path = None) ->
  (forall t path, mkdir_end_of E t path true = MkdirOk) ->
  exists code,
    snd (collect_bundle E a []) = Ret code
    /\ (code = 0 \/ code = 1 \/ code = 2)%Z.
Proof.
  intros Hspawn Hdecode Hwrite Hmkdir.
  assert (Hno : unhandled (fst (collect_bundle E a [])) = None).
  { destruct (collect_bundle_lawful E a) as (ts & _ & Hc).
    destruct (fst (collect_bundle E a [])) as [|e older]; [auto|].
    destruct Hc as [Ha _].
    destruct e as [|argv timeout p|path ok r|path c err|]; simpl in Ha |- *;
      auto.
    - subst p. destruct (proc_end_of _) eqn:Hp; auto.
      + exfalso. eapply Hspawn, Hp.
      + exfalso. eapply Hdecode, Hp.
    - destruct ok; [|reflexivity].
      rewrite Hmkdir in Ha. now subst r.
    - rewrite Hwrite in Ha. now subst err. }
  destruct (collect_bundle_run E a) as [(_ & _ & _ & Hstop)|Hfin].
  { destruct (snd (collect_bundle E a [])) as [code|e]; [|congruence].
    destruct Hstop as [-> _]. exists 2%Z. auto. }
  destruct Hfin as (t2 & started & bundle_dir & any & crs & irs & Hrun
                    & Hclean & Hhost & _).
  destruct (finish_bundle_observed E a started (target_display_of a)
              (expanduser E (Args.out a)) bundle_dir any crs irs t2
              Hclean Hhost)
    as (m & _ & _ & _ & _ & _ & _ & _ & _ & _ & Hres).
  cbv zeta in Hres. rewrite <- Hrun in Hres.
  destruct (snd (collect_bundle E a [])) as [code|e]; [|congruence].
  exists code. split; [reflexivity|]. destruct Hres as (-> & _).
  destruct (archive_failed _); [auto|]. destruct any; auto.
Qed.

End More.

(** X14: the names of the catalog entries are pairwise distinct and hold
    no path separator, so every command has a log file of its own, a direct
    child of the commands directory. *)
Theorem catalog_log_names_distinct (service since : string) :
  NoDup (map fst (build_commands service since))
  /\ Forall (fun name => no_sep (name ++ ".log") = true)
       (map fst (build_commands service since)).
Proof.
  unfold build_commands. destruct service as [|c r]; cbn [Py.is_empty negb map fst app].
  - split; [|repeat constructor].
    repeat (constructor; [simpl; intuition discriminate|]). constructor.
  - split; [|repeat constructor].
    repeat (constructor; [simpl; intuition discriminate|]). constructor.
Qed.


(** ** The state word, and the theorems at sample inputs *)


Lemma splitlines_one_line (s : string) :
  Forall (fun l => one_line l = true) (Py.splitlines s).
Proof.
  induction s as [|c r IH]; simpl; [constructor|].
  destruct (Py.is_linebreak c) eqn:Hc.
  - destruct (_ && _); [exact IH | constructor; [reflexivity | exact IH]].
  - destruct (Py.splitlines r) as [|l ls].
    + repeat constructor. unfold one_line. simpl. now rewrite Hc.
    + inversion IH as [|? ? Hl Hls]; subst. constructor; [|exact Hls].
      unfold one_line in *. simpl. now rewrite Hc, Hl.
Qed.

(** X15: reading the state word never fails, whatever the probe printed:
    the word is not empty and holds no line break, and it is UNKNOWN when
    the output is empty or white space only. *)
Theorem probe_state_total (check_res : Cmd.t) (t : trace) :
  exists state,
    probe_state check_res t = (t, Ret state)
    /\ state <> EmptyString
    /\ one_line state = true
    /\ (Py.strip (Cmd.stdout check_res) = EmptyString -> state = "UNKNOWN").
Proof.
  destruct (probe_state_returns check_res t) as (c & l & Hst).
  exists (String c l). split; [exact Hst|]. split; [discriminate|].
  unfold probe_state in Hst.
  pose proof (splitlines_one_line
                (Py.or_else (Py.strip (Cmd.stdout check_res)) "UNKNOWN")) as Hall.
  destruct (Py.splitlines _) as [|x xs] eqn:Hsp; [discriminate Hst|].
  injection Hst as ->. inversion Hall; subst. split; [assumption|].
  intros Hempty. rewrite Hempty in Hsp. simpl in Hsp. congruence.
Qed.

(** X3 at a list of two paths. *)
Lemma include_paths_join_witness :
  include_paths (Py.join "," ["/etc/hostname"; "/var/log/my app.log"])
  = ["/etc/hostname"; "/var/log/my app.log"].
Proof. apply include_paths_join. repeat constructor. Defined.

(** X4 at [/etc/hosts]. *)
Lemma safe_file_name_leading_sep_witness :
  safe_file_name "/etc/hosts" = safe_file_name "etc/hosts".
Proof. apply safe_file_name_leading_sep. reflexivity. Defined.

(** X6 at the host [db-1]. *)
Lemma bundle_archive_name_witness :
  path_name (bundle_dir_of world_no_space (ssh_args 22) "20260101_000000")
  = "incident_db-1_20260101_000000".
Proof.
  exact (bundle_archive_name world_no_space (ssh_args 22) "20260101_000000"
           eq_refl).
Defined.

(** X9 at an unreachable host. *)
Lemma prerun_failure_touches_nothing_witness :
  snd (collect_bundle world_unreachable (ssh_args 22) []) = Ret 2%Z
  /\ Forall prerun_event (fst (collect_bundle world_unreachable (ssh_args 22) [])).
Proof.
  apply prerun_failure_touches_nothing. right. split; reflexivity.
Defined.

(** X11 at a local run that collects one file. *)
Lemma local_mode_runs_bash_only_witness :
  Forall runs_bash
    (fst (collect_bundle (world_probe "READABLE")
            (local_args 22 "/etc/hostname") [])).
Proof. apply local_mode_runs_bash_only. reflexivity. Defined.

(** X13 at a local run whose include path is missing. *)
Lemma run_returns_when_nothing_escapes_witness :
  exists code,
    snd (collect_bundle (world_probe "MISSING") (local_args 22 "/nope") [])
    = Ret code
    /\ (code = 0 \/ code = 1 \/ code = 2)%Z.
Proof.
  apply run_returns_when_nothing_escapes.
  - intros t argv timeout text. simpl.
    destruct (timeout =? 20)%Z; discriminate.
  - intros t argv timeout text. simpl.
    destruct (timeout =? 20)%Z; discriminate.
  - reflexivity.
  - reflexivity.
Defined.
